(** * A shallow embedding of extra_views/views.py

    Two views are modelled: [MultiFormMixin] (module [MultiForm]), which
    validates and saves a master model form together with extra model forms
    and inline formsets, and [BetterListView] (module [ListActions]), which
    adds free-text search and queryset actions to a Django [ListView].

    The Django collaborators are modelled as far as the views use them:
    a bound form's [is_valid] is a boolean fixed by the submitted data,
    saving is recorded as an event in a trace, [Q] objects combine as
    [django.db.models.Q] does, and a queryset is the ordered list of rows. *)

From Stdlib Require Import String Ascii List ZArith Bool Lia.
Import ListNotations.
Open Scope string_scope.

(** ** Python exceptions raised by the views *)
Inductive Exc :=
| ImproperlyConfigured (msg : string)
| TypeError (msg : string)
| AttributeError (msg : string).

(** The two configuration errors of [_get_forms] and [extra_forms_valid]. *)
Definition is_config_error (e : Exc) : bool :=
  match e with
  | ImproperlyConfigured _ | TypeError _ => true
  | AttributeError _ => false
  end.

(** ** Small string helpers (Python's [str.endswith], slicing, lower) *)
Definition ends_with (suffix s : string) : bool :=
  let n := String.length s in
  let m := String.length suffix in
  (m <=? n)%nat && String.eqb (substring (n - m) m s) suffix.

Definition lower_ascii (c : ascii) : ascii :=
  let n := nat_of_ascii c in
  if (65 <=? n)%nat && (n <=? 90)%nat then ascii_of_nat (n + 32) else c.

Fixpoint lower (s : string) : string :=
  match s with
  | EmptyString => EmptyString
  | String c s' => String (lower_ascii c) (lower s')
  end.

(** [needle in hay] for Python strings. *)
Fixpoint str_contains (needle hay : string) : bool :=
  String.prefix needle hay ||
  match hay with
  | EmptyString => false
  | String _ hay' => str_contains needle hay'
  end.

(** The reverse of a string (used to compare suffixes). *)
Fixpoint srev (s : string) : string :=
  match s with
  | EmptyString => EmptyString
  | String c s' => srev s' ++ String c EmptyString
  end.

(* ===================================================================== *)
(** * MultiFormMixin (views.py, lines 10-227) *)
(* ===================================================================== *)
Module MultiForm.

(** What a form class does once bound to the submitted POST data: the
    outcome of [is_valid], whether it has a [save] method, the entity that
    [save(commit=False)] returns, whether [setattr] of the foreign key on
    that entity succeeds, and whether [save_m2m] is present afterwards. *)
Record FormBehaviour := {
  fb_valid : bool;
  fb_has_save : bool;
  fb_entity : Z;
  fb_setattr_ok : bool;
  fb_has_save_m2m : bool
}.

(** The value stored under ['form_class'] / ['formset_class']: something
    falsy, a class, or a plain function ([types.FunctionType]) called with the
    view, returning a class or [None]. *)
Inductive ClassVal :=
| CVFalsy
| CVClass (b : FormBehaviour)
| CVFunction (result : option FormBehaviour).

(** The value stored under ['instance']: falsy, a callable (its result on
    the view), or a non-callable value. *)
Inductive InstanceVal :=
| IVFalsy
| IVCallable (result : option Z)
| IVValue (v : Z).

(** A value of ['kwargs']: a plain value, or a callable, given by what it
    returns when called with the view. *)
Inductive KwVal :=
| KwLiteral (v : Z)
| KwCallable (result : Z).

(** A form or formset descriptor: the dictionary [form_data]. [None] means
    the key is absent. *)
Record Descriptor := {
  d_name : string;
  d_form_class : option ClassVal;
  d_formset_class : option ClassVal;
  d_instance : option InstanceVal;
  d_foreign_key_field : option string;
  d_field_name_for_object : option string;
  d_kwargs : option (list (string * KwVal))
}.

(** A constructed form: the name its descriptor is declared under (which
    identifies it in the events below; it is the [prefix] passed to the
    constructor unless [kwargs] override it), whether it was built for a
    POST, [form.is_bound], the [instance] and the [kwargs] its constructor
    receives, and [form.settings]. The form classes are taken to accept the
    keyword arguments they are given. *)
Record Form := {
  f_prefix : string;
  f_post : bool;                        (* [data]/[files] of the request were passed *)
  f_bound : bool;                       (* [form.is_bound] *)
  f_instance : option Z;
  f_kwargs : list (string * KwVal);
  f_behaviour : FormBehaviour;
  f_settings : Descriptor
}.

(** Django's [BaseForm.is_valid]: [self.is_bound and not self.errors]. *)
Definition form_valid_result (f : Form) : bool :=
  f_bound f && fb_valid (f_behaviour f).

(** [form_data.get('form_class', form_data.get('formset_class', None))] *)
Definition resolve_class (d : Descriptor) : ClassVal :=
  match d_form_class d with
  | Some v => v
  | None => match d_formset_class d with Some v => v | None => CVFalsy end
  end.

(** [form_data['kwargs']], or no entry when the key is absent (the
    [KeyError] is caught). *)
Definition descriptor_kwargs (d : Descriptor) : list (string * KwVal) :=
  match d_kwargs d with Some kw => kw | None => [] end.

(** The loop over [kwargs.items()] (lines 132-136) raises when it calls
    [v(self)] on a value under a [__callable] key that is not callable. *)
Definition kwargs_error (kw : list (string * KwVal)) : option Exc :=
  if existsb (fun '(k, v) =>
                ends_with "__callable" k &&
                match v with KwLiteral _ => true | KwCallable _ => false end) kw
  then Some (TypeError "'int' object is not callable")
  else None.

(** The dict [final_kwargs] the loop builds when [kwargs_error] is [None]:
    a [__callable] key loses its suffix and carries the callable's result;
    any other entry is passed as it is (a callable as the callable
    itself). A non-callable under a [__callable] key is never reached:
    the loop has raised. *)
Definition final_kwargs (kw : list (string * KwVal)) : list (string * KwVal) :=
  map (fun '(k, v) =>
         if ends_with "__callable" k then
           (substring 0 (String.length k - String.length "__callable") k,
            match v with KwLiteral x => KwLiteral x | KwCallable r => KwLiteral r end)
         else (k, v)) kw.

(** One iteration of [_get_forms] (lines 100-143). *)
Definition build_form (is_formset : bool) (object : option Z)
    (method_post : bool) (d : Descriptor) : Exc + Form :=
  let name := d_name d in
  let cls :=
    match resolve_class d with
    | CVFalsy =>
        inl (ImproperlyConfigured ("`form_class` is required for `" ++ name ++ "`."))
    | CVClass b => inr b
    | CVFunction None =>
        inl (TypeError ("Calling `form_class` did not return anything for `" ++ name ++ "`."))
    | CVFunction (Some b) => inr b
    end in
  match cls with
  | inl e => inl e
  | inr b =>
      let instance :=
        match is_formset, d_instance d with
        | false, Some (IVCallable r) => r
        | true, _ => object
        | false, _ => None
        end in
      match kwargs_error (descriptor_kwargs d) with
      | Some e => inl e
      | None =>
          let kws := final_kwargs (descriptor_kwargs d) in
          (* [is_bound]: [data] or [files] is not [None]; no value [kwargs]
             can hold is [None] *)
          let bound :=
            method_post ||
            existsb (fun '(k, _) => String.eqb k "data" || String.eqb k "files") kws in
          inr {| f_prefix := name; f_post := method_post; f_bound := bound;
                 f_instance := instance; f_kwargs := kws; f_behaviour := b; f_settings := d |}
      end
  end.

(** [_get_forms] (lines 98-144): raises at the first bad descriptor. *)
Fixpoint _get_forms (is_formset : bool) (object : option Z)
    (method_post : bool) (ds : list Descriptor) : Exc + list Form :=
  match ds with
  | [] => inr []
  | d :: ds' =>
      match build_form is_formset object method_post d with
      | inl e => inl e
      | inr f =>
          match _get_forms is_formset object method_post ds' with
          | inl e => inl e
          | inr fs => inr (f :: fs)
          end
      end
  end.

(** The master form of [get_form(form_class)]: its validity and the
    primary key of the entity [form.save()] persists. *)
Record MasterForm := { mf_valid : bool; mf_pk : Z }.

(** A view instance: the result of [get_object()] ([None] when it raises
    [AttributeError]), the master form, the attributes
    [extra_form_classes] / [formset_classes] ([None] when absent), and the
    success URL. *)
Record View := {
  v_get_object : option Z;
  v_form : MasterForm;
  v_extra_form_classes : option (list Descriptor);
  v_formset_classes : option (list Descriptor);
  v_success_url : string
}.

(** [get_extra_form_classes] / [get_formset_classes] (lines 74-96). *)
Definition get_extra_form_classes (v : View) : list Descriptor :=
  match v_extra_form_classes v with Some l => l | None => [] end.
Definition get_formset_classes (v : View) : list Descriptor :=
  match v_formset_classes v with Some l => l | None => [] end.

(** ** Observable effects *)
Inductive FormRef := RMaster | RExtra (prefix : string) | RFormset (prefix : string).

Inductive FkState := FkUnset | FkSet (v : option Z).

Inductive Event :=
| EIsValid (r : FormRef)                              (* form.is_valid() *)
| ESaveMaster (pk : Z)                                (* form.save() *)
| ESaveEntity (prefix : string) (entity : Z) (fk : FkState) (* extra_obj.save() *)
| ESaveM2M (prefix : string)                          (* form.save_m2m() *)
| ESaveFormset (prefix : string) (instance : option Z). (* formset.save() *)

(** Persistence events (everything except validation). *)
Definition is_write (e : Event) : bool :=
  match e with EIsValid _ => false | _ => true end.

Record Context := {
  ctx_form : MasterForm;
  ctx_extra_forms : list Form;
  ctx_formsets : list Form
}.

Inductive Response := Redirect (url : string) | Render (ctx : Context).

(** ** The state and exception monad of a request *)
Record St := {
  st_object : option Z;                 (* self.object *)
  st_extra_forms : option (list Form);  (* self._extra_forms *)
  st_formsets : option (list Form);     (* self._formsets *)
  st_trace : list Event
}.

Definition init : St :=
  {| st_object := None; st_extra_forms := None; st_formsets := None; st_trace := [] |}.

Definition M (A : Type) := St -> (Exc + A) * St.

Definition ret {A} (a : A) : M A := fun s => (inr a, s).
Definition bind {A B} (m : M A) (k : A -> M B) : M B :=
  fun s => match m s with
           | (inl e, s') => (inl e, s')
           | (inr a, s') => k a s'
           end.
Definition raise {A} (e : Exc) : M A := fun s => (inl e, s).

Notation "x <- m ;; k" := (bind m (fun x => k)) (at level 61, m at next level, right associativity).
Notation "m ;; k" := (bind m (fun _ => k)) (at level 61, right associativity).

Definition emit (e : Event) : M unit :=
  fun s => (inr tt, {| st_object := st_object s; st_extra_forms := st_extra_forms s;
                      st_formsets := st_formsets s; st_trace := st_trace s ++ [e] |}).

Definition get_object_st : M (option Z) := fun s => (inr (st_object s), s).
Definition set_object (o : option Z) : M unit :=
  fun s => (inr tt, {| st_object := o; st_extra_forms := st_extra_forms s;
                      st_formsets := st_formsets s; st_trace := st_trace s |}).

Definition set_extra_forms (l : list Form) : M unit :=
  fun s => (inr tt, {| st_object := st_object s; st_extra_forms := Some l;
                      st_formsets := st_formsets s; st_trace := st_trace s |}).
Definition set_formsets (l : list Form) : M unit :=
  fun s => (inr tt, {| st_object := st_object s; st_extra_forms := st_extra_forms s;
                      st_formsets := Some l; st_trace := st_trace s |}).

Definition lift {A} (r : Exc + A) : M A :=
  match r with inl e => raise e | inr a => ret a end.

Section Methods.
Variable v : View.

(** [post] is only dispatched for POST requests, so within it
    [self.request.method == 'POST'] holds when [_get_forms] runs. *)
Definition method_post : bool := true.

(** [get_extra_forms] (lines 146-149), cached on [self._extra_forms].
    The instance of a formset is [self.object] at construction time. *)
Definition get_extra_forms : M (list Form) :=
  fun s => match st_extra_forms s with
           | Some l => (inr l, s)
           | None =>
               (l <- lift (_get_forms false (st_object s) method_post
                             (get_extra_form_classes v)) ;;
                set_extra_forms l ;; ret l) s
           end.

(** [get_formsets] (lines 151-154), cached on [self._formsets]. *)
Definition get_formsets : M (list Form) :=
  fun s => match st_formsets s with
           | Some l => (inr l, s)
           | None =>
               (l <- lift (_get_forms true (st_object s) method_post
                             (get_formset_classes v)) ;;
                set_formsets l ;; ret l) s
           end.

Definition form_is_valid (r : FormRef) (f : Form) : M bool :=
  emit (EIsValid r) ;; ret (form_valid_result f).

Definition master_is_valid (m : MasterForm) : M bool :=
  emit (EIsValid RMaster) ;; ret (mf_valid m).

(** The loop of [extra_forms_is_valid] / [formsets_is_valid]: it does not
    stop at the first invalid form. *)
Fixpoint all_valid_loop (mk : string -> FormRef) (fs : list Form) (all_valid : bool)
    : M bool :=
  match fs with
  | [] => ret all_valid
  | f :: fs' =>
      ok <- form_is_valid (mk (f_prefix f)) f ;;
      all_valid_loop mk fs' (if negb ok then false else all_valid)
  end.

(** [extra_forms_is_valid] (lines 188-196). *)
Definition extra_forms_is_valid : M bool :=
  fs <- get_extra_forms ;; all_valid_loop RExtra fs true.

(** [formsets_is_valid] (lines 213-221). *)
Definition formsets_is_valid : M bool :=
  fs <- get_formsets ;; all_valid_loop RFormset fs true.

(** The body of the loop of [extra_forms_valid] (lines 201-211). *)
Definition save_extra_form (object : option Z) (f : Form) : M unit :=
  let b := f_behaviour f in
  let st := f_settings f in
  if fb_has_save b then
    (* extra_obj = form.save(commit=False): nothing is persisted *)
    match d_foreign_key_field st, d_field_name_for_object st with
    | None, None =>
        raise (ImproperlyConfigured
                 ("Extra form `" ++ f_prefix f ++ "` has no `foreign_key_field` defined."))
    | _, _ =>
        (* try: setattr(extra_obj, ..., object) except: pass *)
        let fk := if fb_setattr_ok b then FkSet object else FkUnset in
        emit (ESaveEntity (f_prefix f) (fb_entity b) fk) ;;
        (if fb_has_save_m2m b then emit (ESaveM2M (f_prefix f)) else ret tt)
    end
  else ret tt.

Fixpoint save_extra_forms (object : option Z) (fs : list Form) : M unit :=
  match fs with
  | [] => ret tt
  | f :: fs' => save_extra_form object f ;; save_extra_forms object fs'
  end.

(** [extra_forms_valid] (lines 198-211). *)
Definition extra_forms_valid (object : option Z) : M unit :=
  fs <- get_extra_forms ;; save_extra_forms object fs.

Fixpoint save_formsets (object : option Z) (fs : list Form) : M unit :=
  match fs with
  | [] => ret tt
  | f :: fs' =>
      (* formset.instance = object; formset.save() *)
      emit (ESaveFormset (f_prefix f) object) ;; save_formsets object fs'
  end.

(** [formsets_valid] (lines 223-227). *)
Definition formsets_valid (object : option Z) : M unit :=
  fs <- get_formsets ;; save_formsets object fs.

(** [form_valid] (lines 181-183). *)
Definition form_valid (m : MasterForm) : M Response :=
  set_object (Some (mf_pk m)) ;; emit (ESaveMaster (mf_pk m)) ;;
  ret (Redirect (v_success_url v)).

(** [get_context_data] (lines 156-164): formsets are built before the
    extra forms. *)
Definition get_context_data (m : MasterForm) : M Context :=
  formsets <- get_formsets ;;
  extra_forms <- get_extra_forms ;;
  ret {| ctx_form := m; ctx_extra_forms := extra_forms; ctx_formsets := formsets |}.

(** [form_invalid] (lines 185-186). *)
Definition form_invalid (m : MasterForm) : M Response :=
  ctx <- get_context_data m ;; ret (Render ctx).

(** [post] (lines 166-179). Python's [and] evaluates its operands left to
    right and stops at the first false one. *)
Definition post : M Response :=
  set_object (v_get_object v) ;;
  let form := v_form v in
  ok <- (b1 <- master_is_valid form ;;
         if b1 then
           (b2 <- extra_forms_is_valid ;;
            if b2 then formsets_is_valid else ret false)
         else ret false) ;;
  if ok then
    next <- form_valid form ;;
    obj <- get_object_st ;;
    extra_forms_valid obj ;;
    formsets_valid obj ;;
    ret next
  else form_invalid form.

End Methods.
Definition with_trace (s : St) (l : list Event) : St :=
  {| st_object := st_object s; st_extra_forms := st_extra_forms s;
     st_formsets := st_formsets s; st_trace := st_trace s ++ l |}.

Definition validity_events (mk : string -> FormRef) (fs : list Form) : list Event :=
  map (fun f => EIsValid (mk (f_prefix f))) fs.

Definition upd_extra (s : St) (l : list Form) : St :=
  {| st_object := st_object s; st_extra_forms := Some l;
     st_formsets := st_formsets s; st_trace := st_trace s |}.
Definition upd_formsets (s : St) (l : list Form) : St :=
  {| st_object := st_object s; st_extra_forms := st_extra_forms s;
     st_formsets := Some l; st_trace := st_trace s |}.

(** The events [extra_forms_valid] records for one form. *)
Definition extra_save_events (object : option Z) (f : Form) : list Event :=
  let b := f_behaviour f in
  if fb_has_save b then
    ESaveEntity (f_prefix f) (fb_entity b) (if fb_setattr_ok b then FkSet object else FkUnset)
      :: (if fb_has_save_m2m b then [ESaveM2M (f_prefix f)] else [])
  else [].

(** The descriptor of a form with a [save] method names its foreign key. *)
Definition fk_configured (f : Form) : bool :=
  negb (fb_has_save (f_behaviour f)) ||
  match d_foreign_key_field (f_settings f), d_field_name_for_object (f_settings f) with
  | None, None => false
  | _, _ => true
  end.

(** The trace of a request on which every form validates. *)
Definition valid_path_trace (pk : Z) (fs ss : list Form) : list Event :=
  [EIsValid RMaster] ++ validity_events RExtra fs ++ validity_events RFormset ss ++
  [ESaveMaster pk] ++ flat_map (extra_save_events (Some pk)) fs ++
  map (fun f => ESaveFormset (f_prefix f) (Some pk)) ss.

(** No persistence event in a trace. *)
Definition no_writes (l : list Event) : bool := forallb (fun e => negb (is_write e)) l.

(** A descriptor whose class is missing or whose function returns [None]. *)
Definition bad_class (d : Descriptor) : bool :=
  match resolve_class d with
  | CVFalsy | CVFunction None => true
  | _ => false
  end.

(** The state after [master_is_valid] in [post]. *)
Definition st_after_master (v : View) : St :=
  {| st_object := v_get_object v; st_extra_forms := None; st_formsets := None;
     st_trace := [EIsValid RMaster] |}.

(** ** The constructor kwargs of a built form *)

(** A value of the dict [form_class_kwargs] (lines 111-137). *)
Inductive KwArg :=
| KPrefix (p : string)
| KData
| KFiles
| KInstance (i : option Z)
| KUser (x : KwVal).

(** [d[k] = v] on a Python dict: an existing key keeps its position. *)
Fixpoint dict_set {A} (k : string) (v : A) (d : list (string * A)) : list (string * A) :=
  match d with
  | [] => [(k, v)]
  | (k', v') :: d' => if String.eqb k k' then (k, v) :: d' else (k', v') :: dict_set k v d'
  end.

(** [d.update(items)]. *)
Definition dict_update {A} (d : list (string * A)) (items : list (string * A)) : list (string * A) :=
  fold_left (fun acc '(k, v) => dict_set k v acc) items d.

Fixpoint dict_get {A} (k : string) (d : list (string * A)) : option A :=
  match d with
  | [] => None
  | (k', v) :: d' => if String.eqb k k' then Some v else dict_get k d'
  end.

(** The keyword arguments [form_class] is called with:
    [prefix], then [data] and [files] on a POST, then [instance], updated
    with the descriptor's [kwargs]. *)
Definition form_class_kwargs (f : Form) : list (string * KwArg) :=
  dict_update
    ([("prefix", KPrefix (f_prefix f))] ++
     (if f_post f then [("data", KData); ("files", KFiles)] else []) ++
     [("instance", KInstance (f_instance f))])
    (map (fun '(k, x) => (k, KUser x)) (f_kwargs f)).



Local Open Scope Z_scope.

(** ** Example configuration (the class docstring's [ACreateView]) *)

Definition b1_behaviour : FormBehaviour :=
  {| fb_valid := true; fb_has_save := true; fb_entity := 10;
     fb_setattr_ok := true; fb_has_save_m2m := true |}.

Definition b2_behaviour : FormBehaviour :=
  {| fb_valid := true; fb_has_save := true; fb_entity := 20;
     fb_setattr_ok := true; fb_has_save_m2m := false |}.

(** [extra_form_classes['b1_form']], with its class behaving as [b]. *)
Definition b1_desc (cls : ClassVal) (fk : option string) : Descriptor :=
  {| d_name := "b1_form"; d_form_class := Some cls; d_formset_class := None;
     d_instance := Some (IVCallable (Some 10)); d_foreign_key_field := fk;
     d_field_name_for_object := None; d_kwargs := None |}.

(** [extra_form_classes['b1_form']] with a valid class, a foreign key and
    the given [kwargs]. *)
Definition b1_desc_kwargs (kw : list (string * KwVal)) : Descriptor :=
  {| d_name := "b1_form"; d_form_class := Some (CVClass b1_behaviour); d_formset_class := None;
     d_instance := Some (IVCallable (Some 10)); d_foreign_key_field := Some "a";
     d_field_name_for_object := None; d_kwargs := Some kw |}.

(** [formset_classes['b2_formset']]. *)
Definition b2_desc : Descriptor :=
  {| d_name := "b2_formset"; d_form_class := Some (CVClass b2_behaviour);
     d_formset_class := None; d_instance := None; d_foreign_key_field := None;
     d_field_name_for_object := None; d_kwargs := None |}.

Definition a_create_view (master_valid : bool) (extra : Descriptor) : View :=
  {| v_get_object := None; v_form := {| mf_valid := master_valid; mf_pk := 1 |};
     v_extra_form_classes := Some [extra]; v_formset_classes := Some [b2_desc];
     v_success_url := "/a/" |}.

(** The forms [_get_forms] builds for them on a POST to a create view. *)
Definition b1_form (b : FormBehaviour) (fk : option string) : Form :=
  {| f_prefix := "b1_form"; f_post := true; f_bound := true; f_instance := Some 10; f_kwargs := [];
     f_behaviour := b; f_settings := b1_desc (CVClass b) fk |}.

Definition b2_formset : Form :=
  {| f_prefix := "b2_formset"; f_post := true; f_bound := true; f_instance := None; f_kwargs := [];
     f_behaviour := b2_behaviour; f_settings := b2_desc |}.

(** An extra form that fails validation. *)
Definition b1_invalid : FormBehaviour :=
  {| fb_valid := false; fb_has_save := true; fb_entity := 10;
     fb_setattr_ok := true; fb_has_save_m2m := true |}.

(** An extra form whose entity refuses the foreign-key assignment. *)
Definition b1_no_setattr : FormBehaviour :=
  {| fb_valid := true; fb_has_save := true; fb_entity := 10;
     fb_setattr_ok := false; fb_has_save_m2m := false |}.
End MultiForm.

(* ===================================================================== *)
(** * BetterListView (views.py, lines 230-437) *)
(* ===================================================================== *)
Module ListActions.

Local Open Scope Z_scope.

(** A row of the model's table: its primary key and its field values. *)
Record Entity := { pk : Z; field : string -> string }.

(** [django.db.models.Q] as far as [get_queryset] builds it. *)
Inductive Q :=
| QEmpty                               (* Q() *)
| QIcontains (fld term : string)       (* Q(<fld>__icontains=term) *)
| QOr (a b : Q).

Definition q_is_empty (q : Q) : bool :=
  match q with QEmpty => true | _ => false end.

(** [Q.__or__] / [Q._combine]: an empty operand is dropped. *)
Definition q_or (a b : Q) : Q :=
  if q_is_empty b then a else if q_is_empty a then b else QOr a b.

(** The [icontains] lookup: case-insensitive substring. *)
Definition icontains (value term : string) : bool :=
  str_contains (lower term) (lower value).

(** The row filter a [Q] denotes; [filter(Q())] keeps every row. *)
Fixpoint eval_q (q : Q) (e : Entity) : bool :=
  match q with
  | QEmpty => true
  | QIcontains f t => icontains (field e f) t
  | QOr a b => eval_q a e || eval_q b e
  end.

(** [queryset.filter(q)] keeps the order of the rows. *)
Definition qs_filter (qs : list Entity) (q : Q) : list Entity := filter (eval_q q) qs.

(** An attribute of the view that [process_action] may call with the
    queryset: the built-in [delete_selected], or any other attribute, given
    by what the call does to the table and what it returns or raises. *)
Inductive Response := RedirectTo (route : string) | OtherResponse (id : Z).

Inductive Attr :=
| ADeleteSelected
| ACustom (run : list Entity -> list Z -> (Exc + Response) * list Entity).

(** A [BetterListView] subclass: [read_only] as attribute lookup finds it
    ([None] when the subclass sets none: neither [BetterListView]
    (lines 349-355) nor [ListView] defines it), [prefix], [search_fields],
    and the table of its other attributes, by name: those the subclass
    defines and those it inherits from [ListView] and [View] (a method such
    as [get_prefix] raises [TypeError] when called with the queryset,
    [options] returns a response). An entry named [delete_selected]
    overrides the built-in method. *)
Record ListView := {
  lv_read_only : option bool;
  lv_prefix : string;
  lv_search_fields : list string;
  lv_attrs : list (string * Attr)
}.

(** The GET and POST parameters a request carries. *)
Record Request := {
  rq_q : option string;          (* GET['q'] *)
  rq_action : option string;     (* POST['action'] *)
  rq_ids : list Z                (* POST.getlist('id') *)
}.

Fixpoint assoc (k : string) (l : list (string * Attr)) : option Attr :=
  match l with
  | [] => None
  | (k', a) :: l' => if String.eqb k k' then Some a else assoc k l'
  end.

(** [getattr(self, name)]: the attribute table first, then the built-in
    [delete_selected]; [None] is the [AttributeError]. *)
Definition getattr (v : ListView) (name : string) : option Attr :=
  match assoc name (lv_attrs v) with
  | Some a => Some a
  | None => if String.eqb name "delete_selected" then Some ADeleteSelected else None
  end.

Definition get_prefix (v : ListView) : string := lv_prefix v.

Definition index_route (prefix : string) : string := prefix ++ "_index".

(** [get_queryset] (lines 357-365); [db] is [super().get_queryset()]. *)
Definition search_filter (fields : list string) (q : string) : Q :=
  fold_left (fun filters f => q_or filters (QIcontains f q)) fields QEmpty.

Definition get_queryset (v : ListView) (db : list Entity) (req : Request) : list Entity :=
  let q := match rq_q req with Some s => s | None => "" end in
  if negb (String.eqb q "") then qs_filter db (search_filter (lv_search_fields v) q)
  else db.

(** [queryset.delete()] on [filter(pk__in=ids)]. *)
Definition delete_pks (db : list Entity) (ids : list Z) : list Entity :=
  filter (fun e => negb (existsb (Z.eqb (pk e)) ids)) db.

(** [delete_selected] (lines 422-424). *)
Definition delete_selected (v : ListView) (db : list Entity) (ids : list Z)
    : (Exc + Response) * list Entity :=
  (inr (RedirectTo (index_route (lv_prefix v))), delete_pks db ids).

(** [process_action] (lines 417-420). *)
Definition process_action (v : ListView) (db : list Entity) (action : string) (ids : list Z)
    : (Exc + Response) * list Entity :=
  match lv_read_only v with
  | None => (inl (AttributeError "read_only"), db)
  | Some false =>
      match getattr v action with
      | None => (inl (AttributeError action), db)
      | Some ADeleteSelected => delete_selected v db ids
      | Some (ACustom run) => run db ids
      end
  | Some true => (inr (RedirectTo (index_route (lv_prefix v))), db)
  end.

(** [post] (lines 393-400). *)
Definition post (v : ListView) (db : list Entity) (req : Request)
    : (Exc + Response) * list Entity :=
  match lv_read_only v with
  | None => (inl (AttributeError "read_only"), db)
  | Some false =>
      let selected_action := match rq_action req with Some a => a | None => "" end in
      let ids := rq_ids req in
      if negb (String.eqb selected_action "") then process_action v db selected_action ids
      else (inr (RedirectTo (index_route (get_prefix v))), db)
  | Some true => (inr (RedirectTo (index_route (get_prefix v))), db)
  end.

(** A row some search field of which contains the term (case-insensitively). *)
Definition matches_any (fields : list string) (q : string) (e : Entity) : bool :=
  existsb (fun f => icontains (field e f) q) fields.

(** ** The listing's template context *)

(** A Python tuple or list of (name, label) pairs. *)
Inductive PySeq :=
| PyTuple (l : list (string * string))
| PyList (l : list (string * string)).

(** What the display hooks of the view return: [get_table_columns()],
    [get_actions()], [get_single_actions()], the result of a
    [get_search_fields] the subclass overrides ([None] when it inherits the
    one of lines 414-415, which returns [self.search_fields]), and the
    model's [verbose_name_plural]. *)
Record ListDisplay := {
  ld_table_columns : list (string * string);
  ld_actions : PySeq;
  ld_single_actions : list (string * string);
  ld_get_search_fields : option (list string);
  ld_verbose_name_plural : string
}.

(** [self.get_search_fields()]. *)
Definition get_search_fields (v : ListView) (d : ListDisplay) : list string :=
  match ld_get_search_fields d with Some l => l | None => lv_search_fields v end.

(** [self.get_actions() + default_actions], [default_actions] being a
    tuple: a list on the left raises [TypeError]. *)
Definition add_default_actions (a : PySeq) (default : list (string * string))
    : Exc + list (string * string) :=
  match a with
  | PyTuple l => inr (l ++ default)%list
  | PyList _ => inl (TypeError "can only concatenate list (not 'tuple') to list")
  end.

(** The entries [get_context_data] adds (the URL entries are the bound
    methods themselves and are left out). *)
Record ListContext := {
  lc_table_columns : list (string * string);
  lc_actions : list (string * string);
  lc_single_actions : list (string * string);
  lc_has_search_enabled : bool;
  lc_search_query : string
}.

(** [get_context_data] (lines 367-391); the dict literal is evaluated in
    order and nothing before the [actions] entry can fail. *)
Definition get_context_data (v : ListView) (d : ListDisplay) (req : Request)
    : Exc + ListContext :=
  let default_actions :=
    [("delete_selected",
      "Delete the currently selected " ++ ld_verbose_name_plural d ++ ".")] in
  match add_default_actions (ld_actions d) default_actions with
  | inl e => inl e
  | inr actions =>
      inr {| lc_table_columns := ld_table_columns d;
             lc_actions := actions;
             lc_single_actions := ld_single_actions d;
             lc_has_search_enabled :=
               negb (match get_search_fields v d with [] => true | _ => false end);
             lc_search_query := match rq_q req with Some s => s | None => "" end |}
  end.

(** ** The URL methods (lines 426-436)

    [reverse(name, kwargs=...)] is kept as the route name it is given and
    the primary key passed in [kwargs] ([detail_url] calls the model's
    [get_absolute_url] and is left out). *)
Definition create_url (v : ListView) : string * option Z :=
  (lv_prefix v ++ "_create", None).

Definition edit_url (v : ListView) (o : Entity) : string * option Z :=
  (lv_prefix v ++ "_edit", Some (pk o)).

Definition delete_url (v : ListView) (o : Entity) : string * option Z :=
  (lv_prefix v ++ "_delete", Some (pk o)).

(** ** Example data *)
Definition row (k : Z) (name : string) : Entity :=
  {| pk := k; field := fun f => if String.eqb f "name" then name else "" |}.

Definition items_view (ro : option bool) (fields : list string) : ListView :=
  {| lv_read_only := ro; lv_prefix := "items"; lv_search_fields := fields; lv_attrs := [] |}.

Definition items_db : list Entity := [row 1 "Alpha"; row 2 "beta"; row 3 "ALPHABET"].

End ListActions.

(* ===================================================================== *)
(** * Facts about MultiFormMixin *)
(* ===================================================================== *)
Module MultiFormFacts.
Import MultiForm.
(** ** Run lemmas *)

Lemma with_trace_app s l1 l2 :
  with_trace (with_trace s l1) l2 = with_trace s (l1 ++ l2).
Proof. destruct s; unfold with_trace; simpl; now rewrite app_assoc. Qed.

Lemma with_trace_nil s : with_trace s [] = s.
Proof. destruct s; unfold with_trace; simpl; now rewrite app_nil_r. Qed.

Lemma bind_ok {A B} (m : M A) (k : A -> M B) s a s' :
  m s = (inr a, s') -> bind m k s = k a s'.
Proof. intro H; unfold bind; now rewrite H. Qed.

Lemma bind_exc {A B} (m : M A) (k : A -> M B) s e s' :
  m s = (inl e, s') -> bind m k s = (inl e, s').
Proof. intro H; unfold bind; now rewrite H. Qed.

Lemma emit_run e s : emit e s = (inr tt, with_trace s [e]).
Proof. reflexivity. Qed.

Lemma all_valid_loop_run mk fs : forall acc s,
  all_valid_loop mk fs acc s =
  (inr (acc && forallb form_valid_result fs), with_trace s (validity_events mk fs)).
Proof.
  induction fs as [|f fs IH]; intros acc s; simpl.
  - now rewrite andb_true_r, with_trace_nil.
  - cbv [bind form_is_valid emit ret]. rewrite IH. destruct s; unfold with_trace; simpl.
    rewrite <- app_assoc. f_equal. f_equal.
    destruct (form_valid_result f), acc; reflexivity.
Qed.

Section Getters.
Variable v : View.
Variable s : St.

Lemma get_extra_forms_fresh fs :
  st_extra_forms s = None ->
  _get_forms false (st_object s) method_post (get_extra_form_classes v) = inr fs ->
  get_extra_forms v s = (inr fs, upd_extra s fs).
Proof. intros H1 H2; unfold get_extra_forms; now rewrite H1, H2. Qed.

Lemma get_extra_forms_fail e :
  st_extra_forms s = None ->
  _get_forms false (st_object s) method_post (get_extra_form_classes v) = inl e ->
  get_extra_forms v s = (inl e, s).
Proof. intros H1 H2; unfold get_extra_forms; now rewrite H1, H2. Qed.

Lemma get_extra_forms_cached fs :
  st_extra_forms s = Some fs -> get_extra_forms v s = (inr fs, s).
Proof. intros H1; unfold get_extra_forms; now rewrite H1. Qed.

Lemma get_formsets_fresh ss :
  st_formsets s = None ->
  _get_forms true (st_object s) method_post (get_formset_classes v) = inr ss ->
  get_formsets v s = (inr ss, upd_formsets s ss).
Proof. intros H1 H2; unfold get_formsets; now rewrite H1, H2. Qed.

Lemma get_formsets_fail e :
  st_formsets s = None ->
  _get_forms true (st_object s) method_post (get_formset_classes v) = inl e ->
  get_formsets v s = (inl e, s).
Proof. intros H1 H2; unfold get_formsets; now rewrite H1, H2. Qed.

Lemma get_formsets_cached ss :
  st_formsets s = Some ss -> get_formsets v s = (inr ss, s).
Proof. intros H1; unfold get_formsets; now rewrite H1. Qed.

End Getters.

Lemma save_extra_forms_run obj fs : forall s,
  forallb fk_configured fs = true ->
  save_extra_forms obj fs s = (inr tt, with_trace s (flat_map (extra_save_events obj) fs)).
Proof.
  induction fs as [|f fs IH]; intros s Hc; simpl in *.
  - now rewrite with_trace_nil.
  - apply andb_prop in Hc as [Hf Hc].
    destruct f as [pfx pst bnd inst kw [val hs ent sok m2m] sett].
    unfold fk_configured in Hf; simpl in Hf.
    cbv [bind save_extra_form emit ret extra_save_events]; simpl.
    destruct hs; simpl in Hf.
    + destruct (d_foreign_key_field sett), (d_field_name_for_object sett);
        try discriminate;
        destruct m2m; simpl; rewrite IH by exact Hc;
        destruct s; unfold with_trace; simpl; now rewrite <- !app_assoc.
    + rewrite IH by exact Hc. reflexivity.
Qed.

Lemma save_formsets_run obj ss : forall s,
  save_formsets obj ss s =
  (inr tt, with_trace s (map (fun f => ESaveFormset (f_prefix f) obj) ss)).
Proof.
  induction ss as [|f ss IH]; intros s; simpl.
  - now rewrite with_trace_nil.
  - cbv [bind emit ret]. rewrite IH.
    destruct s; unfold with_trace; simpl; now rewrite <- app_assoc.
Qed.

Lemma extra_forms_is_valid_fresh v s fs :
  st_extra_forms s = None ->
  _get_forms false (st_object s) method_post (get_extra_form_classes v) = inr fs ->
  extra_forms_is_valid v s =
  (inr (forallb form_valid_result fs), with_trace (upd_extra s fs) (validity_events RExtra fs)).
Proof.
  intros H1 H2; unfold extra_forms_is_valid.
  rewrite (bind_ok _ _ s fs (upd_extra s fs)) by (apply get_extra_forms_fresh; assumption).
  apply all_valid_loop_run.
Qed.

Lemma formsets_is_valid_fresh v s ss :
  st_formsets s = None ->
  _get_forms true (st_object s) method_post (get_formset_classes v) = inr ss ->
  formsets_is_valid v s =
  (inr (forallb form_valid_result ss), with_trace (upd_formsets s ss) (validity_events RFormset ss)).
Proof.
  intros H1 H2; unfold formsets_is_valid.
  rewrite (bind_ok _ _ s ss (upd_formsets s ss)) by (apply get_formsets_fresh; assumption).
  apply all_valid_loop_run.
Qed.

Lemma post_valid_run v fs ss :
  _get_forms false (v_get_object v) method_post (get_extra_form_classes v) = inr fs ->
  _get_forms true (v_get_object v) method_post (get_formset_classes v) = inr ss ->
  mf_valid (v_form v) = true ->
  forallb form_valid_result fs = true ->
  forallb form_valid_result ss = true ->
  forallb fk_configured fs = true ->
  post v init =
  (inr (Redirect (v_success_url v)),
   {| st_object := Some (mf_pk (v_form v)); st_extra_forms := Some fs;
      st_formsets := Some ss; st_trace := valid_path_trace (mf_pk (v_form v)) fs ss |}).
Proof.
  intros Hx Hs Hm Hfv Hsv Hk.
  unfold post.
  cbv [bind set_object master_is_valid emit ret init]. simpl. rewrite Hm.
  erewrite extra_forms_is_valid_fresh; [ | reflexivity | exact Hx ].
  rewrite Hfv.
  erewrite formsets_is_valid_fresh; [ | reflexivity | exact Hs ].
  rewrite Hsv.
  cbv [upd_extra upd_formsets with_trace]; simpl.
  unfold extra_forms_valid.
  erewrite bind_ok; [ | apply get_extra_forms_cached; reflexivity ].
  rewrite save_extra_forms_run by exact Hk.
  unfold formsets_valid.
  erewrite bind_ok; [ | apply get_formsets_cached; reflexivity ].
  rewrite save_formsets_run.
  unfold with_trace, valid_path_trace; simpl.
  now rewrite <- !app_assoc.
Qed.

Arguments no_writes : simpl never.

Lemma no_writes_app l1 l2 : no_writes (l1 ++ l2) = no_writes l1 && no_writes l2.
Proof. unfold no_writes; apply forallb_app. Qed.

Lemma no_writes_validity mk fs : no_writes (validity_events mk fs) = true.
Proof. unfold no_writes; induction fs; simpl; auto. Qed.

Lemma no_writes_cons_valid r l : no_writes (EIsValid r :: l) = no_writes l.
Proof. reflexivity. Qed.

Lemma no_writes_nil : no_writes [] = true.
Proof. reflexivity. Qed.

Lemma with_trace_st_trace s l : st_trace (with_trace s l) = (st_trace s ++ l)%list.
Proof. reflexivity. Qed.

Lemma extra_forms_is_valid_fail v s e :
  st_extra_forms s = None ->
  _get_forms false (st_object s) method_post (get_extra_form_classes v) = inl e ->
  extra_forms_is_valid v s = (inl e, s).
Proof.
  intros H1 H2; unfold extra_forms_is_valid.
  apply bind_exc; now apply get_extra_forms_fail.
Qed.

Lemma formsets_is_valid_fail v s e :
  st_formsets s = None ->
  _get_forms true (st_object s) method_post (get_formset_classes v) = inl e ->
  formsets_is_valid v s = (inl e, s).
Proof.
  intros H1 H2; unfold formsets_is_valid.
  apply bind_exc; now apply get_formsets_fail.
Qed.

Lemma build_form_config_error b o m d e :
  build_form b o m d = inl e -> is_config_error e = true.
Proof.
  unfold build_form, kwargs_error. destruct (resolve_class d) as [|cb|[cb|]];
    try destruct (existsb _ _); intro H; inversion H; reflexivity.
Qed.

Lemma get_forms_config_error b o m ds e :
  _get_forms b o m ds = inl e -> is_config_error e = true.
Proof.
  induction ds as [|d ds IH]; simpl; [discriminate|].
  destruct (build_form b o m d) eqn:Hb; [intro H; inversion H; subst; eauto using build_form_config_error|].
  destruct (_get_forms b o m ds); [intro H; inversion H; subst; auto | discriminate].
Qed.

Lemma build_form_bad b o m d :
  bad_class d = true -> exists e, build_form b o m d = inl e.
Proof.
  unfold bad_class, build_form. destruct (resolve_class d) as [|cb|[cb|]]; intro H;
    try discriminate; eexists; reflexivity.
Qed.

Lemma get_forms_bad b o m ds d :
  In d ds -> bad_class d = true -> exists e, _get_forms b o m ds = inl e.
Proof.
  induction ds as [|d' ds IH]; simpl; [contradiction|].
  intros [->|Hin] Hb.
  - destruct (build_form_bad b o m d Hb) as [e He]; rewrite He; eauto.
  - destruct (build_form b o m d'); [eauto|].
    destruct (IH Hin Hb) as [e He]; rewrite He; eauto.
Qed.

Lemma form_invalid_run v m s fs ss :
  (st_formsets s = None /\
   _get_forms true (st_object s) method_post (get_formset_classes v) = inr ss
   \/ st_formsets s = Some ss) ->
  (st_extra_forms s = None /\
   _get_forms false (st_object s) method_post (get_extra_form_classes v) = inr fs
   \/ st_extra_forms s = Some fs) ->
  fst (form_invalid v m s) =
    inr (Render {| ctx_form := m; ctx_extra_forms := fs; ctx_formsets := ss |}) /\
  st_trace (snd (form_invalid v m s)) = st_trace s.
Proof.
  intros Hs Hx. cbv [form_invalid get_context_data bind ret].
  destruct Hs as [[Hs1 Hs2]|Hs1].
  - rewrite (get_formsets_fresh v s ss Hs1 Hs2).
    destruct Hx as [[Hx1 Hx2]|Hx1].
    + rewrite (get_extra_forms_fresh v (upd_formsets s ss) fs Hx1 Hx2). auto.
    + rewrite (get_extra_forms_cached v (upd_formsets s ss) fs Hx1). auto.
  - rewrite (get_formsets_cached v s ss Hs1).
    destruct Hx as [[Hx1 Hx2]|Hx1].
    + rewrite (get_extra_forms_fresh v s fs Hx1 Hx2). auto.
    + rewrite (get_extra_forms_cached v s fs Hx1). auto.
Qed.

Lemma post_master_step v :
  post v init =
  bind (if mf_valid (v_form v) then
          (b2 <- extra_forms_is_valid v ;;
           if b2 then formsets_is_valid v else ret false)
        else ret false)
       (fun ok =>
          if ok then
            next <- form_valid v (v_form v) ;;
            obj <- get_object_st ;;
            extra_forms_valid v obj ;;
            formsets_valid v obj ;;
            ret next
          else form_invalid v (v_form v))
       (st_after_master v).
Proof. reflexivity. Qed.

Lemma post_invalid_run v fs ss :
  _get_forms false (v_get_object v) method_post (get_extra_form_classes v) = inr fs ->
  _get_forms true (v_get_object v) method_post (get_formset_classes v) = inr ss ->
  mf_valid (v_form v) && forallb form_valid_result fs && forallb form_valid_result ss = false ->
  fst (post v init) =
    inr (Render {| ctx_form := v_form v; ctx_extra_forms := fs; ctx_formsets := ss |}) /\
  no_writes (st_trace (snd (post v init))) = true.
Proof.
  intros Hx Hs Hinv.
  rewrite post_master_step.
  destruct (mf_valid (v_form v)) eqn:Hm; simpl in Hinv; cbv beta iota.
  - set (S1 := with_trace (upd_extra (st_after_master v) fs) (validity_events RExtra fs)).
    assert (HE : extra_forms_is_valid v (st_after_master v) =
                 (inr (forallb form_valid_result fs), S1))
      by (apply extra_forms_is_valid_fresh; [reflexivity | exact Hx]).
    cbv [bind ret]; rewrite HE; cbv beta iota.
    destruct (forallb form_valid_result fs) eqn:Hfv; simpl in Hinv.
    + set (S2 := with_trace (upd_formsets S1 ss) (validity_events RFormset ss)).
      assert (HF : formsets_is_valid v S1 = (inr (forallb form_valid_result ss), S2))
        by (apply formsets_is_valid_fresh; [reflexivity | exact Hs]).
      rewrite HF, Hinv; cbv beta iota.
      destruct (form_invalid_run v (v_form v) S2 fs ss)
        as [H1 H2]; [ right; reflexivity | right; reflexivity | ].
      rewrite H1, H2. split; [reflexivity|].
      simpl. rewrite ?no_writes_cons_valid, ?no_writes_app, ?no_writes_validity, ?no_writes_nil; reflexivity.
    + destruct (form_invalid_run v (v_form v) S1 fs ss)
        as [H1 H2]; [ left; split; [reflexivity | exact Hs] | right; reflexivity | ].
      rewrite H1, H2. split; [reflexivity|].
      simpl. rewrite ?no_writes_cons_valid, ?no_writes_app, ?no_writes_validity, ?no_writes_nil; reflexivity.
  - destruct (form_invalid_run v (v_form v) (st_after_master v) fs ss)
      as [H1 H2]; [ left; split; [reflexivity | exact Hs]
                  | left; split; [reflexivity | exact Hx] | ].
    cbv [bind ret]; rewrite H1, H2. split; reflexivity.
Qed.

Lemma form_invalid_fail_formsets v m s e :
  st_formsets s = None ->
  _get_forms true (st_object s) method_post (get_formset_classes v) = inl e ->
  form_invalid v m s = (inl e, s).
Proof.
  intros H1 H2. cbv [form_invalid get_context_data bind ret].
  now rewrite (get_formsets_fail v s e H1 H2).
Qed.

Lemma form_invalid_fail_extra v m s ss e :
  st_formsets s = None ->
  _get_forms true (st_object s) method_post (get_formset_classes v) = inr ss ->
  st_extra_forms s = None ->
  _get_forms false (st_object s) method_post (get_extra_form_classes v) = inl e ->
  form_invalid v m s = (inl e, upd_formsets s ss).
Proof.
  intros H1 H2 H3 H4. cbv [form_invalid get_context_data bind ret].
  rewrite (get_formsets_fresh v s ss H1 H2).
  now rewrite (get_extra_forms_fail v (upd_formsets s ss) e H3 H4).
Qed.

Lemma post_config_error_run v :
  (exists e, _get_forms false (v_get_object v) method_post (get_extra_form_classes v) = inl e) \/
  (exists e, _get_forms true (v_get_object v) method_post (get_formset_classes v) = inl e) ->
  exists e,
    fst (post v init) = inl e /\
    (_get_forms false (v_get_object v) method_post (get_extra_form_classes v) = inl e \/
     _get_forms true (v_get_object v) method_post (get_formset_classes v) = inl e) /\
    no_writes (st_trace (snd (post v init))) = true.
Proof.
  intros Hfail.
  rewrite post_master_step.
  destruct (_get_forms true (v_get_object v) method_post (get_formset_classes v))
    as [es|ss] eqn:Es;
  destruct (_get_forms false (v_get_object v) method_post (get_extra_form_classes v))
    as [ex|fs] eqn:Ex;
  try (destruct Hfail as [[e He]|[e He]]; discriminate);
  destruct (mf_valid (v_form v)) eqn:Hm; cbv beta iota.
  (* formsets and extra forms both fail, master valid *)
  - assert (HE : extra_forms_is_valid v (st_after_master v) = (inl ex, st_after_master v))
      by (apply extra_forms_is_valid_fail; [reflexivity | exact Ex]).
    cbv [bind ret]; rewrite HE. exists ex. auto.
  (* both fail, master invalid *)
  - cbv [bind ret].
    rewrite (form_invalid_fail_formsets v (v_form v) (st_after_master v) es eq_refl Es).
    exists es. auto.
  (* only the formsets fail, master valid *)
  - set (S1 := with_trace (upd_extra (st_after_master v) fs) (validity_events RExtra fs)).
    assert (HE : extra_forms_is_valid v (st_after_master v) =
                 (inr (forallb form_valid_result fs), S1))
      by (apply extra_forms_is_valid_fresh; [reflexivity | exact Ex]).
    cbv [bind ret]; rewrite HE; cbv beta iota.
    destruct (forallb form_valid_result fs).
    + rewrite (formsets_is_valid_fail v S1 es eq_refl Es).
      exists es. repeat split; auto. simpl.
      rewrite ?no_writes_cons_valid, ?no_writes_validity; reflexivity.
    + rewrite (form_invalid_fail_formsets v (v_form v) S1 es eq_refl Es).
      exists es. repeat split; auto. simpl.
      rewrite ?no_writes_cons_valid, ?no_writes_validity; reflexivity.
  (* only the formsets fail, master invalid *)
  - cbv [bind ret].
    rewrite (form_invalid_fail_formsets v (v_form v) (st_after_master v) es eq_refl Es).
    exists es. auto.
  (* only the extra forms fail, master valid *)
  - assert (HE : extra_forms_is_valid v (st_after_master v) = (inl ex, st_after_master v))
      by (apply extra_forms_is_valid_fail; [reflexivity | exact Ex]).
    cbv [bind ret]; rewrite HE. exists ex. auto.
  (* only the extra forms fail, master invalid *)
  - cbv [bind ret].
    rewrite (form_invalid_fail_extra v (v_form v) (st_after_master v) ss ex eq_refl Es eq_refl Ex).
    exists ex. auto.
Qed.

Lemma forallb_in_false {A} (p : A -> bool) (l : list A) (x : A) :
  In x l -> p x = false -> forallb p l = false.
Proof.
  intros Hi Hp. destruct (forallb p l) eqn:E; [|reflexivity].
  rewrite forallb_forall in E. now rewrite (E x Hi) in Hp.
Qed.

(** ** Claims on [MultiFormMixin.post] *)

(** C1 (counterexample): all forms validate, but the descriptor of the extra
    form names no [foreign_key_field]: the master entity is saved, then
    [extra_forms_valid] raises [ImproperlyConfigured], so the response is
    not the redirect to the success URL. *)
Lemma C1_counterexample :
  let r := post (a_create_view true (b1_desc (CVClass b1_behaviour) None)) init in
  fst r <> inr (Redirect "/a/") /\ In (ESaveMaster 1) (st_trace (snd r)).
Proof. vm_compute. split; [discriminate | auto]. Qed.

(** C1 (amended): when the master form and every extra form and formset
    validate, and every extra form with a [save] method has a descriptor
    naming [foreign_key_field] (or [field_name_for_object]), [post] returns
    the redirect to the success URL and the trace is: the validations, the
    save of the master entity, then for each extra form with [save] the save
    of its entity with the foreign key set to the master entity (left unset
    when [setattr] raises) followed by [save_m2m] when present, then the
    save of each formset with its instance set to the master entity. *)
Theorem C1_post_all_valid_saves_in_order (v : View) (fs ss : list Form) :
  _get_forms false (v_get_object v) method_post (get_extra_form_classes v) = inr fs ->
  _get_forms true (v_get_object v) method_post (get_formset_classes v) = inr ss ->
  mf_valid (v_form v) = true ->
  forallb form_valid_result fs = true ->
  forallb form_valid_result ss = true ->
  forallb fk_configured fs = true ->
  fst (post v init) = inr (Redirect (v_success_url v)) /\
  st_trace (snd (post v init)) = valid_path_trace (mf_pk (v_form v)) fs ss.
Proof.
  intros Hx Hs Hm Hfv Hsv Hk.
  rewrite (post_valid_run v fs ss Hx Hs Hm Hfv Hsv Hk). split; reflexivity.
Qed.

Lemma C1_witness :
  fst (post (a_create_view true (b1_desc (CVClass b1_behaviour) (Some "a"))) init)
    = inr (Redirect "/a/") /\
  st_trace (snd (post (a_create_view true (b1_desc (CVClass b1_behaviour) (Some "a"))) init))
    = valid_path_trace 1 [b1_form b1_behaviour (Some "a")] [b2_formset].
Proof.
  apply (C1_post_all_valid_saves_in_order
           (a_create_view true (b1_desc (CVClass b1_behaviour) (Some "a")))
           [b1_form b1_behaviour (Some "a")] [b2_formset]); reflexivity.
Defined.

(** C2: when the master form, an extra form or a formset is invalid,
    [post] saves nothing and renders the page with a context holding the
    master form, all extra forms and all formsets, each form carrying its
    own errors. *)
Theorem C2_post_invalid_renders_without_saving (v : View) (fs ss : list Form) :
  _get_forms false (v_get_object v) method_post (get_extra_form_classes v) = inr fs ->
  _get_forms true (v_get_object v) method_post (get_formset_classes v) = inr ss ->
  mf_valid (v_form v) = false \/
  (exists f, In f fs /\ form_valid_result f = false) \/
  (exists f, In f ss /\ form_valid_result f = false) ->
  fst (post v init) =
    inr (Render {| ctx_form := v_form v; ctx_extra_forms := fs; ctx_formsets := ss |}) /\
  no_writes (st_trace (snd (post v init))) = true.
Proof.
  intros Hx Hs Hinv. apply post_invalid_run; [exact Hx | exact Hs |].
  destruct Hinv as [Hm|[[f [Hi Hf]]|[f [Hi Hf]]]].
  - now rewrite Hm.
  - now rewrite (forallb_in_false _ _ _ Hi Hf), andb_false_r.
  - now rewrite (forallb_in_false _ _ _ Hi Hf), andb_false_r.
Qed.

Lemma C2_witness :
  fst (post (a_create_view false (b1_desc (CVClass b1_behaviour) (Some "a"))) init) =
    inr (Render {| ctx_form := v_form (a_create_view false (b1_desc (CVClass b1_behaviour) (Some "a")));
                   ctx_extra_forms := [b1_form b1_behaviour (Some "a")];
                   ctx_formsets := [b2_formset] |}) /\
  no_writes (st_trace (snd (post (a_create_view false (b1_desc (CVClass b1_behaviour) (Some "a"))) init)))
    = true.
Proof.
  apply (C2_post_invalid_renders_without_saving
           (a_create_view false (b1_desc (CVClass b1_behaviour) (Some "a")))
           [b1_form b1_behaviour (Some "a")] [b2_formset]);
    [reflexivity | reflexivity | left; reflexivity].
Defined.

(** C3 (code bug): [post] combines the three checks with Python's
    short-circuiting [and]. With an invalid master form no extra form or
    formset is validated; with a valid master form and an invalid extra
    form the formsets are not validated. *)
Theorem C3_post_short_circuits_validation :
  st_trace (snd (post (a_create_view false (b1_desc (CVClass b1_behaviour) (Some "a"))) init))
    = [EIsValid RMaster] /\
  st_trace (snd (post (a_create_view true (b1_desc (CVClass b1_invalid) (Some "a"))) init))
    = [EIsValid RMaster; EIsValid (RExtra "b1_form")].
Proof. split; reflexivity. Qed.

(** C6: on the valid path, when [setattr] of the foreign key on the entity
    of an extra form raises, the exception is swallowed: the request still
    ends in the redirect and the entity is saved with the foreign key
    unset. *)
Theorem C6_setattr_failure_swallowed (v : View) (fs ss : list Form) (f : Form) :
  _get_forms false (v_get_object v) method_post (get_extra_form_classes v) = inr fs ->
  _get_forms true (v_get_object v) method_post (get_formset_classes v) = inr ss ->
  mf_valid (v_form v) = true ->
  forallb form_valid_result fs = true ->
  forallb form_valid_result ss = true ->
  forallb fk_configured fs = true ->
  In f fs ->
  fb_has_save (f_behaviour f) = true ->
  fb_setattr_ok (f_behaviour f) = false ->
  fst (post v init) = inr (Redirect (v_success_url v)) /\
  In (ESaveEntity (f_prefix f) (fb_entity (f_behaviour f)) FkUnset)
     (st_trace (snd (post v init))).
Proof.
  intros Hx Hs Hm Hfv Hsv Hk Hin Hsave Hset.
  rewrite (post_valid_run v fs ss Hx Hs Hm Hfv Hsv Hk); simpl.
  split; [reflexivity|].
  unfold valid_path_trace. rewrite !in_app_iff.
  right; right; right. apply in_cons, in_or_app. left.
  apply in_flat_map. exists f. split; [exact Hin|].
  unfold extra_save_events. rewrite Hsave, Hset. now left.
Qed.

Lemma C6_witness :
  fst (post (a_create_view true (b1_desc (CVClass b1_no_setattr) (Some "a"))) init)
    = inr (Redirect "/a/") /\
  In (ESaveEntity "b1_form" 10 FkUnset)
     (st_trace (snd (post (a_create_view true (b1_desc (CVClass b1_no_setattr) (Some "a"))) init))).
Proof.
  apply (C6_setattr_failure_swallowed
           (a_create_view true (b1_desc (CVClass b1_no_setattr) (Some "a")))
           [b1_form b1_no_setattr (Some "a")] [b2_formset] (b1_form b1_no_setattr (Some "a")));
    try reflexivity. now left.
Defined.

(** C7 (counterexample): an extra form descriptor without [form_class]
    makes [post] raise [ImproperlyConfigured], but only after the master
    form has been validated. *)
Lemma C7_counterexample :
  let r := post (a_create_view true (b1_desc CVFalsy (Some "a"))) init in
  fst r = inl (ImproperlyConfigured "`form_class` is required for `b1_form`.") /\
  In (EIsValid RMaster) (st_trace (snd r)).
Proof. cbv zeta. split; [reflexivity | now left]. Qed.

(** C7 (amended): when an extra form or formset descriptor has no class
    (neither [form_class] nor [formset_class] gives a truthy value) or its
    [form_class] function returns nothing, [post] raises a configuration
    error ([ImproperlyConfigured] or [TypeError]) and nothing has been
    saved; only validations (of the master form, and of the extra forms when
    the bad descriptor is a formset's) may precede it. *)
Theorem C7_bad_descriptor_raises_before_saving (v : View) :
  (exists d, In d (get_extra_form_classes v) /\ bad_class d = true) \/
  (exists d, In d (get_formset_classes v) /\ bad_class d = true) ->
  exists e, fst (post v init) = inl e /\ is_config_error e = true /\
            no_writes (st_trace (snd (post v init))) = true.
Proof.
  intros Hbad.
  destruct (post_config_error_run v) as [e [He [Hsrc Hw]]].
  - destruct Hbad as [[d [Hi Hb]]|[d [Hi Hb]]]; [left|right];
      eapply get_forms_bad; eauto.
  - exists e. split; [exact He|]. split; [|exact Hw].
    destruct Hsrc as [H|H]; eapply get_forms_config_error; exact H.
Qed.

Lemma C7_witness :
  exists e, fst (post (a_create_view true (b1_desc CVFalsy (Some "a"))) init) = inl e /\
            is_config_error e = true /\
            no_writes (st_trace (snd (post (a_create_view true (b1_desc CVFalsy (Some "a"))) init)))
              = true.
Proof.
  apply (C7_bad_descriptor_raises_before_saving (a_create_view true (b1_desc CVFalsy (Some "a")))).
  left. exists (b1_desc CVFalsy (Some "a")). split; [now left | reflexivity].
Defined.

(** ** Further properties of [_get_forms] and [post] *)


Lemma build_form_shape b o m d f :
  build_form b o m d = inr f ->
  f_prefix f = d_name d /\ f_settings f = d /\ f_post f = m /\
  f_bound f = m || existsb (fun '(k, _) => String.eqb k "data" || String.eqb k "files")
                             (f_kwargs f) /\
  f_kwargs f = final_kwargs (descriptor_kwargs d) /\
  f_instance f = match b, d_instance d with
                 | false, Some (IVCallable r) => r
                 | true, _ => o
                 | false, _ => None
                 end.
Proof.
  unfold build_form. destruct (resolve_class d) as [|cb|[cb|]]; try (intro H; discriminate H);
    destruct (kwargs_error (descriptor_kwargs d)); intro H; inversion H; subst; simpl;
    repeat split; reflexivity.
Qed.


Lemma dict_get_set_other {A} (k k' : string) (v : A) (d : list (string * A)) :
  k <> k' -> dict_get k (dict_set k' v d) = dict_get k d.
Proof.
  intro Hne. induction d as [|[k1 v1] d IH]; simpl.
  - destruct (String.eqb_spec k k'); [contradiction|reflexivity].
  - destruct (String.eqb_spec k' k1) as [->|Hk]; simpl.
    + destruct (String.eqb_spec k k1); [contradiction|reflexivity].
    + destruct (String.eqb k k1); [reflexivity|exact IH].
Qed.

Lemma dict_get_set_same {A} (k : string) (v : A) (d : list (string * A)) :
  dict_get k (dict_set k v d) = Some v.
Proof.
  induction d as [|[k1 v1] d IH]; simpl.
  - now rewrite String.eqb_refl.
  - destruct (String.eqb_spec k k1) as [->|Hk]; simpl.
    + now rewrite String.eqb_refl.
    + apply String.eqb_neq in Hk. now rewrite Hk.
Qed.

Lemma dict_get_update_notin {A} (k : string) (items d : list (string * A)) :
  ~ In k (map fst items) -> dict_get k (dict_update d items) = dict_get k d.
Proof.
  unfold dict_update. revert d. induction items as [|[k1 v1] items IH]; intros d Hn; simpl in *.
  - reflexivity.
  - rewrite IH by tauto. apply dict_get_set_other. intro; subst; tauto.
Qed.

Lemma dict_update_app {A} (d a b : list (string * A)) :
  dict_update d (a ++ b) = dict_update (dict_update d a) b.
Proof. unfold dict_update. apply fold_left_app. Qed.

Lemma kuser_keys (l : list (string * KwVal)) :
  map fst (map (fun '(k, x) => (k, KUser x)) l) = map fst l.
Proof. rewrite map_map. apply map_ext. intros [k x]. reflexivity. Qed.






(** X4: unless the descriptor's [kwargs] supply an [instance] key, the
    constructor of a formset receives [instance=self.object], and the
    constructor of an extra form receives the result of calling its
    ['instance'] callable, or [None] when ['instance'] is absent, falsy or
    not callable. *)
Theorem X4_constructor_instance (b : bool) (o : option Z) (d : Descriptor) (f : Form) :
  build_form b o method_post d = inr f ->
  (forall kw, d_kwargs d = Some kw -> ~ In "instance" (map fst (final_kwargs kw))) ->
  dict_get "instance" (form_class_kwargs f) =
  Some (KInstance (if b then o
                   else match d_instance d with Some (IVCallable r) => r | _ => None end)).
Proof.
  intros Hb Hk.
  destruct (build_form_shape b o method_post d f Hb) as [_ [_ [Hpost [_ [Hkw Hinst]]]]].
  unfold form_class_kwargs. rewrite dict_get_update_notin.
  - rewrite Hpost, Hinst. unfold method_post. simpl.
    destruct b; [reflexivity|]. destruct (d_instance d) as [[| |]|]; reflexivity.
  - rewrite kuser_keys, Hkw. unfold descriptor_kwargs.
    destruct (d_kwargs d) as [kw|]; [exact (Hk kw eq_refl) | simpl; tauto].
Qed.

Lemma X4_witness :
  dict_get "instance"
    (form_class_kwargs {| f_prefix := "b2_formset"; f_post := true; f_bound := true;
                          f_instance := Some 7%Z; f_kwargs := []; f_behaviour := b2_behaviour;
                          f_settings := b2_desc |})
  = Some (KInstance (Some 7%Z)).
Proof.
  apply (X4_constructor_instance true (Some 7%Z) b2_desc);
    [reflexivity | intros kw E; discriminate E].
Defined.

Lemma str_length_app (a b : string) : String.length (a ++ b) = (String.length a + String.length b)%nat.
Proof. induction a; simpl; auto. Qed.

Lemma substring_full (s : string) : substring 0 (String.length s) s = s.
Proof. induction s; simpl; f_equal; auto. Qed.

Lemma substring_app_l (a b : string) : substring 0 (String.length a) (a ++ b) = a.
Proof. induction a; simpl; [now destruct b | f_equal; auto]. Qed.

Lemma substring_app_r (a b : string) :
  substring (String.length a) (String.length b) (a ++ b) = b.
Proof. induction a; simpl; [apply substring_full | auto]. Qed.

Lemma ends_with_app (k suf : string) : ends_with suf (k ++ suf) = true.
Proof.
  unfold ends_with. rewrite str_length_app.
  replace (String.length k + String.length suf - String.length suf)%nat
    with (String.length k) by lia.
  rewrite substring_app_r, String.eqb_refl, andb_true_r.
  apply Nat.leb_le; lia.
Qed.

Lemma strip_suffix_app (k suf : string) :
  substring 0 (String.length (k ++ suf) - String.length suf) (k ++ suf) = k.
Proof.
  rewrite str_length_app.
  replace (String.length k + String.length suf - String.length suf)%nat
    with (String.length k) by lia.
  apply substring_app_l.
Qed.

Lemma final_kwargs_callable (k : string) (r : Z) :
  final_kwargs [(k ++ "__callable", KwCallable r)] = [(k, KwLiteral r)].
Proof.
  unfold final_kwargs. cbn [map].
  rewrite ends_with_app, strip_suffix_app. reflexivity.
Qed.

Lemma final_kwargs_app (a c : list (string * KwVal)) :
  final_kwargs (a ++ c) = (final_kwargs a ++ final_kwargs c)%list.
Proof. unfold final_kwargs. apply map_app. Qed.

(** X5: an entry [k ++ "__callable"] of a descriptor's [kwargs] reaches the
    form's constructor as the keyword argument [k] with the value the
    callable returns (also over [prefix], [data], [files] or [instance]),
    unless a later entry of [kwargs] passes [k] too. *)
Theorem X5_callable_kwarg_reaches_constructor (b : bool) (o : option Z) (m : bool)
    (d : Descriptor) (f : Form) (k : string) (r : Z) (pre post : list (string * KwVal)) :
  build_form b o m d = inr f ->
  descriptor_kwargs d = (pre ++ ((k ++ "__callable")%string, KwCallable r) :: post)%list ->
  ~ In k (map fst (final_kwargs post)) ->
  dict_get k (form_class_kwargs f) = Some (KUser (KwLiteral r)).
Proof.
  intros Hb Hd Hn.
  destruct (build_form_shape b o m d f Hb) as [_ [_ [_ [_ [Hkw _]]]]].
  unfold form_class_kwargs. rewrite Hkw, Hd.
  change (((k ++ "__callable")%string, KwCallable r) :: post)
    with ([((k ++ "__callable")%string, KwCallable r)] ++ post)%list.
  rewrite !final_kwargs_app, final_kwargs_callable, !map_app, !dict_update_app.
  rewrite dict_get_update_notin by (rewrite kuser_keys; exact Hn).
  apply dict_get_set_same.
Qed.

Lemma X5_witness :
  exists f, build_form false None true
              (b1_desc_kwargs [("prefix__callable", KwCallable 3%Z); ("x", KwLiteral 5%Z)]) = inr f /\
  dict_get "prefix" (form_class_kwargs f) = Some (KUser (KwLiteral 3%Z)).
Proof.
  eexists. split; [reflexivity|].
  apply (X5_callable_kwarg_reaches_constructor false None true
           (b1_desc_kwargs [("prefix__callable", KwCallable 3%Z); ("x", KwLiteral 5%Z)])
           _ "prefix" 3%Z [] [("x", KwLiteral 5%Z)]);
    [reflexivity | reflexivity | simpl; intros [H|[]]; discriminate H].
Defined.

(** X6: the extra forms and the formsets are built at most once per
    request: once [get_extra_forms] (or [get_formsets]) has returned a list,
    later calls return the same list, record nothing and leave the state
    alone. *)
Theorem X6_forms_built_once (v : View) :
  (forall s fs s', get_extra_forms v s = (inr fs, s') ->
     st_extra_forms s' = Some fs /\ st_trace s' = st_trace s /\
     get_extra_forms v s' = (inr fs, s')) /\
  (forall s ss s', get_formsets v s = (inr ss, s') ->
     st_formsets s' = Some ss /\ st_trace s' = st_trace s /\
     get_formsets v s' = (inr ss, s')).
Proof.
  split.
  - intros s fs s' H. unfold get_extra_forms in H.
    destruct (st_extra_forms s) eqn:E.
    + inversion H; subst. split; [exact E|]. split; [reflexivity|].
      now apply get_extra_forms_cached.
    + destruct (_get_forms false (st_object s) method_post (get_extra_form_classes v));
        cbv [lift bind raise ret set_extra_forms] in H; inversion H; subst.
      split; [reflexivity|]. split; [reflexivity|]. now apply get_extra_forms_cached.
  - intros s ss s' H. unfold get_formsets in H.
    destruct (st_formsets s) eqn:E.
    + inversion H; subst. split; [exact E|]. split; [reflexivity|].
      now apply get_formsets_cached.
    + destruct (_get_forms true (st_object s) method_post (get_formset_classes v));
        cbv [lift bind raise ret set_formsets] in H; inversion H; subst.
      split; [reflexivity|]. split; [reflexivity|]. now apply get_formsets_cached.
Qed.

Lemma X6_witness :
  st_extra_forms (upd_extra init [b1_form b1_behaviour (Some "a")]) = Some [b1_form b1_behaviour (Some "a")] /\
  st_trace (upd_extra init [b1_form b1_behaviour (Some "a")]) = st_trace init /\
  get_extra_forms (a_create_view true (b1_desc (CVClass b1_behaviour) (Some "a")))
    (upd_extra init [b1_form b1_behaviour (Some "a")]) =
    (inr [b1_form b1_behaviour (Some "a")], upd_extra init [b1_form b1_behaviour (Some "a")]).
Proof.
  apply (proj1 (X6_forms_built_once (a_create_view true (b1_desc (CVClass b1_behaviour) (Some "a"))))
           init). reflexivity.
Defined.

(** X7: within each group, validation does not stop early:
    [extra_forms_is_valid] (and [formsets_is_valid]) builds the forms, calls
    [is_valid] on every one of them in order, and returns true exactly when
    all are valid. *)
Theorem X7_group_validation_complete (v : View) :
  (forall s fs, st_extra_forms s = None ->
     _get_forms false (st_object s) method_post (get_extra_form_classes v) = inr fs ->
     extra_forms_is_valid v s =
     (inr (forallb form_valid_result fs),
      with_trace (upd_extra s fs) (validity_events RExtra fs))) /\
  (forall s ss, st_formsets s = None ->
     _get_forms true (st_object s) method_post (get_formset_classes v) = inr ss ->
     formsets_is_valid v s =
     (inr (forallb form_valid_result ss),
      with_trace (upd_formsets s ss) (validity_events RFormset ss))).
Proof.
  split; intros s l H1 H2.
  - now apply extra_forms_is_valid_fresh.
  - now apply formsets_is_valid_fresh.
Qed.

Lemma X7_witness :
  extra_forms_is_valid (a_create_view true (b1_desc (CVClass b1_invalid) (Some "a"))) init =
  (inr (forallb form_valid_result [b1_form b1_invalid (Some "a")]),
   with_trace (upd_extra init [b1_form b1_invalid (Some "a")])
     (validity_events RExtra [b1_form b1_invalid (Some "a")])).
Proof.
  apply (proj1 (X7_group_validation_complete (a_create_view true (b1_desc (CVClass b1_invalid) (Some "a"))))); reflexivity.
Defined.

Local Open Scope list_scope.

Lemma save_extra_form_ok obj f s :
  fk_configured f = true ->
  save_extra_form obj f s = (inr tt, with_trace s (extra_save_events obj f)).
Proof.
  destruct f as [pfx pst bnd inst kw [val hs ent sok m2m] sett].
  unfold fk_configured; simpl. intro Hf.
  cbv [save_extra_form bind emit ret extra_save_events]; simpl.
  destruct hs; simpl in Hf.
  - destruct (d_foreign_key_field sett), (d_field_name_for_object sett);
      try discriminate; destruct sok, m2m; simpl;
      destruct s; unfold with_trace; simpl; now rewrite <- ?app_assoc.
  - now rewrite with_trace_nil.
Qed.

Lemma save_extra_forms_missing_fk obj pre f rest : forall s,
  forallb fk_configured pre = true -> fk_configured f = false ->
  exists msg, save_extra_forms obj (pre ++ f :: rest) s =
              (inl (ImproperlyConfigured msg), with_trace s (flat_map (extra_save_events obj) pre)).
Proof.
  induction pre as [|f' pre IH]; intros s Hpre Hf; simpl in *.
  - destruct f as [pfx pst bnd inst kw [val hs ent sok m2m] sett].
    unfold fk_configured in Hf; simpl in Hf.
    destruct hs; [|discriminate]. simpl in Hf.
    destruct (d_foreign_key_field sett) eqn:E1, (d_field_name_for_object sett) eqn:E2;
      try discriminate.
    cbv [bind save_extra_form raise]; simpl. rewrite E1, E2.
    eexists. now rewrite with_trace_nil.
  - apply andb_prop in Hpre as [Hf' Hpre].
    rewrite (bind_ok _ _ s tt _ (save_extra_form_ok obj f' s Hf')).
    destruct (IH (with_trace s (extra_save_events obj f')) Hpre Hf) as [msg Hm].
    exists msg. rewrite Hm, with_trace_app. reflexivity.
Qed.

(** X8: when every form validates but an extra form with a [save] method
    has a descriptor naming neither [foreign_key_field] nor
    [field_name_for_object], [post] raises [ImproperlyConfigured] after
    writing: the master entity and the extra forms before it have been
    saved, the formsets have not. *)
Theorem X8_missing_fk_partial_write (v : View) (fs ss pre rest : list Form) (f : Form) :
  _get_forms false (v_get_object v) method_post (get_extra_form_classes v) = inr fs ->
  _get_forms true (v_get_object v) method_post (get_formset_classes v) = inr ss ->
  mf_valid (v_form v) = true ->
  forallb form_valid_result fs = true ->
  forallb form_valid_result ss = true ->
  fs = pre ++ f :: rest ->
  forallb fk_configured pre = true ->
  fk_configured f = false ->
  exists msg,
    fst (post v init) = inl (ImproperlyConfigured msg) /\
    st_trace (snd (post v init)) =
      [EIsValid RMaster] ++ validity_events RExtra fs ++ validity_events RFormset ss ++
      [ESaveMaster (mf_pk (v_form v))] ++
      flat_map (extra_save_events (Some (mf_pk (v_form v)))) pre.
Proof.
  intros Hx Hs Hm Hfv Hsv Hsplit Hpre Hf.
  assert (Hp : exists msg st, post v init = (inl (ImproperlyConfigured msg), st) /\
    st_trace st =
      [EIsValid RMaster] ++ validity_events RExtra fs ++ validity_events RFormset ss ++
      [ESaveMaster (mf_pk (v_form v))] ++
      flat_map (extra_save_events (Some (mf_pk (v_form v)))) pre).
  { unfold post.
    cbv [bind set_object master_is_valid emit ret init]. simpl. rewrite Hm.
    erewrite extra_forms_is_valid_fresh; [ | reflexivity | exact Hx ].
    rewrite Hfv.
    erewrite formsets_is_valid_fresh; [ | reflexivity | exact Hs ].
    rewrite Hsv.
    cbv [upd_extra upd_formsets with_trace]; simpl.
    unfold extra_forms_valid.
    erewrite bind_ok; [ | apply get_extra_forms_cached; reflexivity ].
    rewrite Hsplit.
    edestruct save_extra_forms_missing_fk as [msg Hmsg]; [exact Hpre | exact Hf | ].
    rewrite Hmsg. exists msg. eexists. split; [reflexivity|].
    unfold with_trace; simpl. now rewrite <- !app_assoc. }
  destruct Hp as [msg [st [Hp Ht]]]. exists msg. rewrite Hp. split; [reflexivity | exact Ht].
Qed.

Lemma X8_witness :
  exists msg,
    fst (post (a_create_view true (b1_desc (CVClass b1_behaviour) None)) init)
      = inl (ImproperlyConfigured msg) /\
    st_trace (snd (post (a_create_view true (b1_desc (CVClass b1_behaviour) None)) init)) =
      [EIsValid RMaster] ++ validity_events RExtra [b1_form b1_behaviour None] ++
      validity_events RFormset [b2_formset] ++
      [ESaveMaster (mf_pk (v_form (a_create_view true (b1_desc (CVClass b1_behaviour) None))))] ++
      flat_map (extra_save_events
                  (Some (mf_pk (v_form (a_create_view true (b1_desc (CVClass b1_behaviour) None)))))) [].
Proof.
  apply (X8_missing_fk_partial_write (a_create_view true (b1_desc (CVClass b1_behaviour) None))
           [b1_form b1_behaviour None] [b2_formset] [] [] (b1_form b1_behaviour None));
    reflexivity.
Defined.

(** X9: a view with neither [extra_form_classes] nor [formset_classes]
    behaves like the plain create/update view: a valid form is validated,
    saved and redirected; an invalid one is validated and rendered with empty
    lists of extra forms and formsets, nothing saved. *)
Theorem X9_post_without_secondary_forms (v : View) :
  v_extra_form_classes v = None ->
  v_formset_classes v = None ->
  post v init =
  if mf_valid (v_form v) then
    (inr (Redirect (v_success_url v)),
     {| st_object := Some (mf_pk (v_form v)); st_extra_forms := Some [];
        st_formsets := Some []; st_trace := [EIsValid RMaster; ESaveMaster (mf_pk (v_form v))] |})
  else
    (inr (Render {| ctx_form := v_form v; ctx_extra_forms := []; ctx_formsets := [] |}),
     {| st_object := v_get_object v; st_extra_forms := Some [];
        st_formsets := Some []; st_trace := [EIsValid RMaster] |}).
Proof.
  destruct v as [o [[] pk] ex fss url]; simpl; intros -> ->; reflexivity.
Qed.

Lemma X9_witness :
  post {| v_get_object := Some 4%Z; v_form := {| mf_valid := true; mf_pk := 4%Z |};
          v_extra_form_classes := None; v_formset_classes := None; v_success_url := "/a/4/" |} init =
  (inr (Redirect "/a/4/"),
   {| st_object := Some 4%Z; st_extra_forms := Some []; st_formsets := Some [];
      st_trace := [EIsValid RMaster; ESaveMaster 4%Z] |}).
Proof. apply X9_post_without_secondary_forms; reflexivity. Defined.

End MultiFormFacts.

(* ===================================================================== *)
(** * Facts about BetterListView *)
(* ===================================================================== *)
Module ListActionsFacts.
Import ListActions.
Local Open Scope Z_scope.

Example search_alpha :
  get_queryset (items_view (Some false) ["name"]) items_db
    {| rq_q := Some "alpha"; rq_action := None; rq_ids := [] |} = [row 1 "Alpha"; row 3 "ALPHABET"].
Proof. reflexivity. Qed.

Example delete_two :
  post (items_view (Some false) []) items_db
    {| rq_q := None; rq_action := Some "delete_selected"; rq_ids := [2] |} =
  (inr (RedirectTo "items_index"), [row 1 "Alpha"; row 3 "ALPHABET"]).
Proof. reflexivity. Qed.

Lemma search_fold_eval fields q e : forall acc,
  q_is_empty acc = false ->
  eval_q (fold_left (fun filters f => q_or filters (QIcontains f q)) fields acc) e =
  eval_q acc e || matches_any fields q e.
Proof.
  unfold matches_any.
  induction fields as [|f fields IH]; intros acc Hne; simpl.
  - now rewrite orb_false_r.
  - unfold q_or at 2. simpl. rewrite Hne.
    rewrite IH by reflexivity. simpl. now rewrite orb_assoc.
Qed.

Lemma search_filter_eval fields q e :
  fields <> [] -> eval_q (search_filter fields q) e = matches_any fields q e.
Proof.
  destruct fields as [|f fields]; [contradiction|]. intros _.
  unfold search_filter. simpl.
  change (q_or QEmpty (QIcontains f q)) with (QIcontains f q).
  rewrite search_fold_eval by reflexivity. reflexivity.
Qed.

Lemma search_filter_nil q : search_filter [] q = QEmpty.
Proof. reflexivity. Qed.

Lemma qs_filter_empty db : qs_filter db QEmpty = db.
Proof. unfold qs_filter; induction db; simpl; f_equal; auto. Qed.

Lemma delete_pks_in db ids e :
  In e (delete_pks db ids) <-> In e db /\ ~ In (pk e) ids.
Proof.
  unfold delete_pks. rewrite filter_In, negb_true_iff.
  split; intros [H1 H2]; split; auto.
  - intro Hin. assert (existsb (Z.eqb (pk e)) ids = true)
      by (apply existsb_exists; exists (pk e); split; auto; apply Z.eqb_refl).
    congruence.
  - destruct (existsb (Z.eqb (pk e)) ids) eqn:E; auto.
    apply existsb_exists in E as [x [Hx Hxe]]. apply Z.eqb_eq in Hxe. subst. contradiction.
Qed.

(** ** Claims on [BetterListView] *)

(** C4 (counterexample): with no search field declared, a non-empty term
    filters nothing, while the empty disjunction would keep no row. *)
Lemma C4_counterexample :
  get_queryset (items_view (Some false) []) items_db
    {| rq_q := Some "zzz"; rq_action := None; rq_ids := [] |} = items_db /\
  filter (matches_any [] "zzz") items_db = [].
Proof. split; reflexivity. Qed.

(** C4 (amended): an absent or empty term returns the rows unchanged; a
    non-empty term with at least one search field returns, in order, the rows
    some search field of which contains the term case-insensitively; with no
    search field the rows are returned unchanged. *)
Theorem C4_get_queryset_search (v : ListView) (db : list Entity) (a : option string) (ids : list Z) :
  get_queryset v db {| rq_q := None; rq_action := a; rq_ids := ids |} = db /\
  get_queryset v db {| rq_q := Some ""; rq_action := a; rq_ids := ids |} = db /\
  (forall q, q <> "" -> lv_search_fields v <> [] ->
     get_queryset v db {| rq_q := Some q; rq_action := a; rq_ids := ids |} =
     filter (matches_any (lv_search_fields v) q) db) /\
  (forall q, lv_search_fields v = [] ->
     get_queryset v db {| rq_q := Some q; rq_action := a; rq_ids := ids |} = db).
Proof.
  unfold get_queryset; simpl. split; [reflexivity|]. split; [reflexivity|]. split.
  - intros q Hq Hf.
    destruct (String.eqb_spec q "") as [E|_]; [contradiction|]. simpl.
    unfold qs_filter. apply filter_ext. intro e. now apply search_filter_eval.
  - intros q Hf. rewrite Hf, search_filter_nil, qs_filter_empty.
    now destruct (String.eqb q "").
Qed.

Lemma C4_witness :
  get_queryset (items_view (Some false) ["name"]) items_db
    {| rq_q := Some "alpha"; rq_action := None; rq_ids := [] |} =
  filter (matches_any ["name"] "alpha") items_db.
Proof.
  apply (C4_get_queryset_search (items_view (Some false) ["name"]) items_db None []);
    discriminate.
Defined.

(** C5 (counterexample): a non-empty action name that names no attribute of
    the view makes [getattr] raise [AttributeError]; there is no redirect. *)
Lemma C5_counterexample :
  fst (post (items_view (Some false) []) items_db
         {| rq_q := None; rq_action := Some "frobnicate"; rq_ids := [1] |})
  = inl (AttributeError "frobnicate").
Proof. reflexivity. Qed.

(** C5 (amended): when the view is not read-only, a bulk-action POST whose
    non-empty action name is not an attribute of the view raises
    [AttributeError] and leaves every row in place. *)
Theorem C5_unknown_action_raises (v : ListView) (db : list Entity) (req : Request) (action : string) :
  lv_read_only v = Some false ->
  rq_action req = Some action ->
  action <> "" ->
  getattr v action = None ->
  post v db req = (inl (AttributeError action), db).
Proof.
  intros Hro Ha Hne Hg. unfold post, process_action. rewrite Hro, Ha.
  destruct (String.eqb_spec action "") as [E|_]; [contradiction|]. simpl.
  now rewrite Hg.
Qed.

Lemma C5_witness :
  post (items_view (Some false) []) items_db
    {| rq_q := None; rq_action := Some "frobnicate"; rq_ids := [1] |}
  = (inl (AttributeError "frobnicate"), items_db).
Proof.
  apply C5_unknown_action_raises; [reflexivity | reflexivity | discriminate | reflexivity].
Defined.

(** C8 (counterexample): in read-only mode a [delete_selected] POST deletes
    nothing: the selected row 1 is still there. *)
Lemma C8_counterexample :
  let r := post (items_view (Some true) []) items_db
             {| rq_q := None; rq_action := Some "delete_selected"; rq_ids := [1] |} in
  snd r = items_db /\ In (row 1 "Alpha") (snd r).
Proof. cbv zeta. split; [reflexivity | now left]. Qed.

(** C8 (amended): when the view is not read-only and [delete_selected] is
    the built-in one, a [delete_selected] POST removes exactly the rows whose
    primary key was submitted, keeps the others in order, and redirects to
    the route [<prefix>_index]. *)
Theorem C8_delete_selected_exact (v : ListView) (db : list Entity) (req : Request) :
  lv_read_only v = Some false ->
  rq_action req = Some "delete_selected" ->
  getattr v "delete_selected" = Some ADeleteSelected ->
  post v db req = (inr (RedirectTo (index_route (lv_prefix v))), delete_pks db (rq_ids req)) /\
  (forall e, In e (snd (post v db req)) <-> In e db /\ ~ In (pk e) (rq_ids req)).
Proof.
  intros Hro Ha Hg.
  assert (Hp : post v db req =
               (inr (RedirectTo (index_route (lv_prefix v))), delete_pks db (rq_ids req))).
  { unfold post, process_action. rewrite Hro, Ha. simpl. rewrite Hg. reflexivity. }
  split; [exact Hp|]. intro e. rewrite Hp. apply delete_pks_in.
Qed.

Lemma C8_witness :
  post (items_view (Some false) []) items_db
    {| rq_q := None; rq_action := Some "delete_selected"; rq_ids := [1; 3] |} =
    (inr (RedirectTo (index_route "items")), delete_pks items_db [1; 3]) /\
  (forall e, In e (snd (post (items_view (Some false) []) items_db
                          {| rq_q := None; rq_action := Some "delete_selected"; rq_ids := [1; 3] |}))
             <-> In e items_db /\ ~ In (pk e) [1; 3]).
Proof. apply C8_delete_selected_exact; reflexivity. Defined.

(** C9: in read-only mode every bulk-action POST leaves the rows unchanged
    and redirects to the route [<prefix>_index]. *)
Theorem C9_read_only_no_mutation (v : ListView) (db : list Entity) (req : Request) :
  lv_read_only v = Some true ->
  post v db req = (inr (RedirectTo (index_route (lv_prefix v))), db).
Proof. intros Hro. unfold post. now rewrite Hro. Qed.

Lemma C9_witness :
  post (items_view (Some true) []) items_db
    {| rq_q := None; rq_action := Some "delete_selected"; rq_ids := [1; 2; 3] |} =
  (inr (RedirectTo (index_route "items")), items_db).
Proof. apply C9_read_only_no_mutation. reflexivity. Defined.

(** C10: [BetterListView] gives [read_only] no default: when the subclass
    does not set it, every bulk-action POST raises [AttributeError] on
    [self.read_only] before any dispatch or redirect, and no row changes. *)
Theorem C10_read_only_required (v : ListView) (db : list Entity) (req : Request) :
  lv_read_only v = None ->
  post v db req = (inl (AttributeError "read_only"), db).
Proof. intros Hro. unfold post. now rewrite Hro. Qed.

Lemma C10_witness :
  post (items_view None []) items_db
    {| rq_q := None; rq_action := Some "delete_selected"; rq_ids := [1] |} =
  (inl (AttributeError "read_only"), items_db).
Proof. apply C10_read_only_required. reflexivity. Defined.

Lemma lower_ascii_idem c : lower_ascii (lower_ascii c) = lower_ascii c.
Proof.
  destruct c as [[] [] [] [] [] [] [] []]; reflexivity.
Qed.

Lemma lower_idem s : lower (lower s) = lower s.
Proof. induction s as [|c s IH]; simpl; [reflexivity|]. now rewrite lower_ascii_idem, IH. Qed.

Lemma lower_eqb_empty s : String.eqb (lower s) "" = String.eqb s "".
Proof. destruct s; reflexivity. Qed.

Lemma icontains_lower value t : icontains value (lower t) = icontains value t.
Proof. unfold icontains. now rewrite lower_idem. Qed.

Lemma search_filter_lower fields t e :
  eval_q (search_filter fields (lower t)) e = eval_q (search_filter fields t) e.
Proof.
  destruct fields as [|f fields]; [reflexivity|].
  rewrite !search_filter_eval by discriminate.
  unfold matches_any. generalize (f :: fields) as l.
  induction l as [|x l IH]; simpl; [reflexivity|].
  now rewrite icontains_lower, IH.
Qed.

Lemma delete_pks_stale db ids :
  (forall e, In e db -> ~ In (pk e) ids) -> delete_pks db ids = db.
Proof.
  intro H. unfold delete_pks. apply forallb_filter_id, forallb_forall.
  intros e He. apply negb_true_iff.
  destruct (existsb (Z.eqb (pk e)) ids) eqn:E; [|reflexivity].
  apply existsb_exists in E as [x [Hx Hxe]]. apply Z.eqb_eq in Hxe. subst.
  exfalso. exact (H e He Hx).
Qed.

Lemma delete_pks_idem db ids : delete_pks (delete_pks db ids) ids = delete_pks db ids.
Proof.
  apply delete_pks_stale. intros e He. apply delete_pks_in in He. tauto.
Qed.

(** ** Further properties of [BetterListView] *)

(** X10: the search is case-insensitive in the query term as well:
    lower-casing [GET['q']] gives the same queryset. *)
Theorem X10_search_term_case_insensitive (v : ListView) (db : list Entity) (t : string)
    (act : option string) (ids : list Z) :
  get_queryset v db {| rq_q := Some (lower t); rq_action := act; rq_ids := ids |} =
  get_queryset v db {| rq_q := Some t; rq_action := act; rq_ids := ids |}.
Proof.
  unfold get_queryset; simpl. rewrite lower_eqb_empty.
  destruct (negb (String.eqb t "")); [|reflexivity].
  unfold qs_filter. apply filter_ext. intro e. apply search_filter_lower.
Qed.

(** X11: unless the subclass overrides [get_search_fields], a context that
    reports the search as disabled (no [search_fields]) goes with a
    [get_queryset] that returns the whole table whatever [GET['q']] holds,
    although the context still echoes the term as [search_query]. *)
Theorem X11_search_disabled_no_filter (v : ListView) (d : ListDisplay) (db : list Entity)
    (req : Request) (ctx : ListContext) :
  ld_get_search_fields d = None ->
  get_context_data v d req = inr ctx ->
  lc_has_search_enabled ctx = false ->
  get_queryset v db req = db /\
  lc_search_query ctx = match rq_q req with Some s => s | None => "" end.
Proof.
  intros Hh Hc Hs. unfold get_context_data in Hc.
  destruct (add_default_actions _ _); [discriminate|].
  injection Hc as <-. simpl in Hs. unfold get_search_fields in Hs. rewrite Hh in Hs.
  destruct (lv_search_fields v) eqn:E; [|discriminate Hs].
  split; [|reflexivity].
  unfold get_queryset. rewrite E, search_filter_nil, qs_filter_empty.
  match goal with |- (if ?c then _ else _) = _ => now destruct c end.
Qed.

Lemma X11_witness :
  get_queryset (items_view (Some false) []) items_db
    {| rq_q := Some "beta"; rq_action := None; rq_ids := [] |} = items_db /\
  lc_search_query
    {| lc_table_columns := []; lc_actions := [("delete_selected", "Delete the currently selected items.")];
       lc_single_actions := []; lc_has_search_enabled := false; lc_search_query := "beta" |} = "beta".
Proof.
  apply (X11_search_disabled_no_filter (items_view (Some false) [])
           {| ld_table_columns := []; ld_actions := PyTuple []; ld_single_actions := [];
              ld_get_search_fields := None; ld_verbose_name_plural := "items" |} items_db
           {| rq_q := Some "beta"; rq_action := None; rq_ids := [] |}); reflexivity.
Defined.

(** X12: a POST without an action (absent or empty) to a view that is not
    read-only redirects to the listing and deletes nothing, even when rows
    are selected. *)
Theorem X12_post_without_action_keeps_rows (v : ListView) (db : list Entity) (req : Request) :
  lv_read_only v = Some false ->
  (rq_action req = None \/ rq_action req = Some "") ->
  post v db req = (inr (RedirectTo (index_route (lv_prefix v))), db).
Proof.
  intros Hro Ha. unfold post. rewrite Hro.
  destruct Ha as [-> | ->]; reflexivity.
Qed.

Lemma X12_witness :
  post (items_view (Some false) []) items_db
    {| rq_q := None; rq_action := Some ""; rq_ids := [1; 2; 3] |} =
  (inr (RedirectTo (index_route "items")), items_db).
Proof.
  apply (X12_post_without_action_keeps_rows (items_view (Some false) []) items_db
           {| rq_q := None; rq_action := Some ""; rq_ids := [1; 2; 3] |}); [reflexivity|].
  right; reflexivity.
Defined.

(** X13: with the built-in [delete_selected] and [read_only] false, a
    [delete_selected] POST whose keys match no row (stale keys, or no key
    at all) leaves the table as it is, and so repeating a
    [delete_selected] POST deletes nothing more. *)
Theorem X13_delete_selected_stale_and_repeat (v : ListView) (db : list Entity) (req : Request) :
  lv_read_only v = Some false ->
  getattr v "delete_selected" = Some ADeleteSelected ->
  rq_action req = Some "delete_selected" ->
  ((forall e, In e db -> ~ In (pk e) (rq_ids req)) -> snd (post v db req) = db) /\
  post v (snd (post v db req)) req = (fst (post v db req), snd (post v db req)).
Proof.
  intros Hro Hg Ha.
  assert (Hp : forall db', post v db' req =
            (inr (RedirectTo (index_route (lv_prefix v))), delete_pks db' (rq_ids req))).
  { intro db'. unfold post. rewrite Hro, Ha. simpl.
    unfold process_action. rewrite Hro, Hg. reflexivity. }
  rewrite !Hp. simpl. split.
  - apply delete_pks_stale.
  - now rewrite delete_pks_idem.
Qed.

Lemma X13_witness :
  ((forall e, In e items_db -> ~ In (pk e) [7; 8]) ->
   snd (post (items_view (Some false) []) items_db
          {| rq_q := None; rq_action := Some "delete_selected"; rq_ids := [7; 8] |}) = items_db) /\
  post (items_view (Some false) [])
    (snd (post (items_view (Some false) []) items_db
            {| rq_q := None; rq_action := Some "delete_selected"; rq_ids := [7; 8] |}))
    {| rq_q := None; rq_action := Some "delete_selected"; rq_ids := [7; 8] |} =
  (fst (post (items_view (Some false) []) items_db
          {| rq_q := None; rq_action := Some "delete_selected"; rq_ids := [7; 8] |}),
   snd (post (items_view (Some false) []) items_db
          {| rq_q := None; rq_action := Some "delete_selected"; rq_ids := [7; 8] |})).
Proof.
  apply (X13_delete_selected_stale_and_repeat (items_view (Some false) []) items_db
           {| rq_q := None; rq_action := Some "delete_selected"; rq_ids := [7; 8] |});
    reflexivity.
Defined.

(** X15: when [get_actions()] returns a tuple, the context offers
    [delete_selected] as its last action, after the subclass's own, and on a
    view that is not read-only and keeps the built-in method, posting that
    offered name deletes exactly the selected rows and redirects to the
    listing; when it returns a list, [get_context_data] raises
    [TypeError]. *)
Theorem X15_offered_default_action_deletes (v : ListView) (d : ListDisplay) (db : list Entity)
    (q : option string) (ids : list Z) :
  lv_read_only v = Some false ->
  getattr v "delete_selected" = Some ADeleteSelected ->
  (forall acts, ld_actions d = PyTuple acts ->
   exists ctx name label,
     get_context_data v d {| rq_q := q; rq_action := None; rq_ids := ids |} = inr ctx /\
     lc_actions ctx = (acts ++ [(name, label)])%list /\
     post v db {| rq_q := q; rq_action := Some name; rq_ids := ids |} =
       (inr (RedirectTo (index_route (lv_prefix v))), delete_pks db ids)) /\
  (forall acts, ld_actions d = PyList acts ->
   exists msg, get_context_data v d {| rq_q := q; rq_action := None; rq_ids := ids |} =
               inl (TypeError msg)).
Proof.
  intros Hro Hg. split; intros acts Ha; unfold get_context_data; rewrite Ha; simpl.
  - do 3 eexists. split; [reflexivity|]. split; [reflexivity|].
    unfold post. rewrite Hro. simpl. unfold process_action. rewrite Hro, Hg. reflexivity.
  - eexists. reflexivity.
Qed.

Lemma X15_witness :
  (forall acts, ld_actions {| ld_table_columns := []; ld_actions := PyTuple [("archive", "Archive")];
                             ld_single_actions := []; ld_get_search_fields := None;
                             ld_verbose_name_plural := "items" |} = PyTuple acts ->
   exists ctx name label,
     get_context_data (items_view (Some false) [])
       {| ld_table_columns := []; ld_actions := PyTuple [("archive", "Archive")];
          ld_single_actions := []; ld_get_search_fields := None;
          ld_verbose_name_plural := "items" |}
       {| rq_q := None; rq_action := None; rq_ids := [2] |} = inr ctx /\
     lc_actions ctx = (acts ++ [(name, label)])%list /\
     post (items_view (Some false) []) items_db {| rq_q := None; rq_action := Some name; rq_ids := [2] |} =
       (inr (RedirectTo (index_route (lv_prefix (items_view (Some false) [])))),
        delete_pks items_db [2])) /\
  (forall acts, ld_actions {| ld_table_columns := []; ld_actions := PyTuple [("archive", "Archive")];
                             ld_single_actions := []; ld_get_search_fields := None;
                             ld_verbose_name_plural := "items" |} = PyList acts ->
   exists msg, get_context_data (items_view (Some false) [])
       {| ld_table_columns := []; ld_actions := PyTuple [("archive", "Archive")];
          ld_single_actions := []; ld_get_search_fields := None;
          ld_verbose_name_plural := "items" |}
       {| rq_q := None; rq_action := None; rq_ids := [2] |} = inl (TypeError msg)).
Proof.
  apply (X15_offered_default_action_deletes (items_view (Some false) [])
           {| ld_table_columns := []; ld_actions := PyTuple [("archive", "Archive")];
              ld_single_actions := []; ld_get_search_fields := None;
              ld_verbose_name_plural := "items" |}
           items_db None [2]); reflexivity.
Defined.

Lemma sapp_nil s : (s ++ "")%string = s.
Proof. induction s; simpl; congruence. Qed.

Lemma sapp_assoc a b c : ((a ++ b) ++ c)%string = (a ++ (b ++ c))%string.
Proof. induction a; simpl; congruence. Qed.

Lemma srev_app a b : srev (a ++ b) = (srev b ++ srev a)%string.
Proof.
  induction a as [|c a IH]; simpl.
  - now rewrite sapp_nil.
  - now rewrite IH, sapp_assoc.
Qed.

Lemma srev_involutive s : srev (srev s) = s.
Proof.
  induction s as [|c s IH]; simpl; [reflexivity|].
  rewrite srev_app, IH. reflexivity.
Qed.

Lemma sapp_inv_head s a b : (s ++ a)%string = (s ++ b)%string -> a = b.
Proof. induction s; simpl; [auto|]. intro H; injection H; auto. Qed.

Lemma suffix_rev p1 p2 s1 s2 :
  (p1 ++ s1)%string = (p2 ++ s2)%string -> (srev s1 ++ srev p1)%string = (srev s2 ++ srev p2)%string.
Proof. intro H. rewrite <- !srev_app. now f_equal. Qed.

Lemma same_suffix_inj p1 p2 s :
  (p1 ++ s)%string = (p2 ++ s)%string -> p1 = p2.
Proof.
  intro H. apply suffix_rev, sapp_inv_head in H.
  rewrite <- (srev_involutive p1), <- (srev_involutive p2). now f_equal.
Qed.

(** X16: the listing route [<prefix>_index] and the routes the URL
    methods reverse, [<prefix>_create], [<prefix>_edit] and
    [<prefix>_delete], never coincide, whatever the prefixes of the views;
    and two views reverse the same route of a kind only if they have the
    same [prefix]. *)
Theorem X16_url_routes_distinct (v w : ListView) (o o' : Entity) :
  index_route (lv_prefix v) <> fst (create_url w) /\
  index_route (lv_prefix v) <> fst (edit_url w o) /\
  index_route (lv_prefix v) <> fst (delete_url w o) /\
  fst (create_url v) <> fst (edit_url w o) /\
  fst (create_url v) <> fst (delete_url w o) /\
  fst (edit_url v o) <> fst (delete_url w o') /\
  (index_route (lv_prefix v) = index_route (lv_prefix w) -> lv_prefix v = lv_prefix w) /\
  (fst (create_url v) = fst (create_url w) -> lv_prefix v = lv_prefix w) /\
  (fst (edit_url v o) = fst (edit_url w o') -> lv_prefix v = lv_prefix w) /\
  (fst (delete_url v o) = fst (delete_url w o') -> lv_prefix v = lv_prefix w).
Proof.
  unfold index_route, create_url, edit_url, delete_url; simpl.
  repeat split; try (intro H; apply suffix_rev in H; simpl in H; discriminate H);
    apply same_suffix_inj.
Qed.

End ListActionsFacts.
